(** * go-mtpx: path resolution and tree walks over a handle-addressed store

    A shallow embedding of the helpers of the [mtpx] package (and of the
    older [main] package variant kept in [helpers.go]): object description,
    name lookup, path resolution, the remote walk, file creation and the
    local walk.  The MTP device and the visitor callbacks are collaborators
    of the package; they are modelled as state machines whose calls are
    recorded in a log, so that statements such as "no store call is made"
    can be read off the log. *)

From Stdlib Require Import ZArith String Ascii List Bool Lia DecimalString.
Import ListNotations.

Local Open Scope string_scope.
Local Open Scope list_scope.
Local Open Scope Z_scope.

(** ** Machine integers

    Go's fixed-width integers are carried by [Z].  [uint32] and [uint64]
    values are produced by the device and are only compared or converted;
    [int] and [int64] values are added to, and the additions wrap around
    (Go's [int] is 64 bits wide on the platforms the package targets). *)

Definition uint32 := Z.
Definition uint64 := Z.
Definition int64 := Z.
Definition int := Z.

Definition wrap64 (z : Z) : Z := (z + 2 ^ 63) mod 2 ^ 64 - 2 ^ 63.

Definition max_int : Z := 2 ^ 63 - 1.

(** [int64(v)] for [v : uint64]: the bit pattern is reinterpreted. *)
Definition int64_of_uint64 (v : uint64) : int64 := wrap64 v.

(** [int64(v)] for [v : uint32]: every [uint32] is an [int64]. *)
Definition int64_of_uint32 (v : uint32) : int64 := v.

(** [a + b] on [int] and [int64]. *)
Definition int_add (a b : Z) : Z := wrap64 (a + b).

(** The line feed of Go's ["\n"]. *)
Definition newline : string := String (ascii_of_nat 10) EmptyString.

(** The [%d] verb of [fmt] on an integer. *)
Definition fmt_d (z : Z) : string := NilZero.string_of_int (Z.to_int z).

(** ** Errors

    The package's error kinds are structs that embed the error they wrap
    ([FileObjectError{error: err}]); a type switch looks at the outermost
    constructor.  Errors that come from outside the package (the transport,
    a visitor callback) are opaque apart from their message. *)

Inductive error : Type :=
| ForeignError (msg : string)
| Errorf (msg : string)
| PathError (permission : bool) (msg : string)
| SkipDir
| FileObjectError (e : error)
| FileNotFoundError (e : error)
| InvalidPathError (e : error)
| SendObjectError (e : error)
| ListDirectoryError (e : error)
| FilePermissionError (e : error)
| LocalFileError (e : error).

(** The [Error()] method: the wrappers delegate to the embedded error. *)
Fixpoint Error (e : error) : string :=
  match e with
  | ForeignError msg => msg
  | Errorf msg => msg
  | PathError _ msg => msg
  | SkipDir => "skip this directory"
  | FileObjectError e' => Error e'
  | FileNotFoundError e' => Error e'
  | InvalidPathError e' => Error e'
  | SendObjectError e' => Error e'
  | ListDirectoryError e' => Error e'
  | FilePermissionError e' => Error e'
  | LocalFileError e' => Error e'
  end.

(** A Go result [(v, err)] of which exactly one component is meaningful. *)
Inductive result (A : Type) : Type :=
| Ok (a : A)
| Err (e : error).
Arguments Ok {A} a.
Arguments Err {A} e.

(** ** Records of the MTP library and of the package *)

Definition Time := Z.

(** [mtp.ObjectInfo], restricted to the fields the package reads or sets. *)
Record ObjectInfo : Type := mkObjectInfo {
  StorageID : uint32;
  ObjectFormat : Z;
  CompressedSize : uint32;
  ParentObject : uint32;
  Filename : string;
  ModificationDate : Time
}.

(** The zero value [mtp.ObjectInfo{}]. *)
Definition ObjectInfo_zero : ObjectInfo :=
  {| StorageID := 0; ObjectFormat := 0; CompressedSize := 0;
     ParentObject := 0; Filename := EmptyString; ModificationDate := 0 |}.

(** Constants of the MTP library. *)
Definition OFC_Association : Z := 0x3001.
Definition OPC_ObjectSize : Z := 0xDC04.
Definition OPC_ObjectFileName : Z := 0xDC07.
Definition GOH_ALL_ASSOCS : Z := 0x00000000.

(** [FileInfo], the descriptor of a remote object. *)
Record FileInfo : Type := mkFileInfo {
  Info : ObjectInfo;
  Size : int64;
  IsDir : bool;
  ModTime : Time;
  Name : string;
  FullPath : string;
  ParentPath : string;
  Extension : string;
  ParentId : uint32;
  ObjectId : uint32
}.

Definition set_FullPath (fi : FileInfo) (p : string) : FileInfo :=
  {| Info := Info fi; Size := Size fi; IsDir := IsDir fi; ModTime := ModTime fi;
     Name := Name fi; FullPath := p; ParentPath := ParentPath fi;
     Extension := Extension fi; ParentId := ParentId fi;
     ObjectId := ObjectId fi |}.

(** ** The collaborators

    [Device D]: the calls the package makes on [*mtp.Device], over a store
    state [D].  The read calls observe the store without changing it; only
    [sendObjectInfo], [sendObject] and [deleteObject] do.
    [GetObjectPropValue] decodes into the variable it is handed, hence one
    entry per value type. *)

Class Device (D : Type) : Type := {
  getObjectInfo : D -> uint32 -> result ObjectInfo;
  getObjectPropUint64 : D -> uint32 -> Z -> result uint64;
  getObjectPropString : D -> uint32 -> Z -> result string;
  getObjectHandles : D -> uint32 -> Z -> uint32 -> result (list uint32);
  sendObjectInfo :
    D -> uint32 -> uint32 -> ObjectInfo ->
    (uint32 * uint32 * uint32 * option error) * D;
  sendObject :
    D -> list Byte.byte -> int64 -> (int64 -> option error) ->
    option error * D;
  deleteObject : D -> uint32 -> option error * D
}.

(** [os.FileInfo] of a local entry, as [Lstat] reports it. *)
Record os_FileInfo : Type := mkOsFileInfo {
  os_Name : string;
  os_Size : int64;
  os_Mode : Z
}.

(** [ModeDir] is the top bit of the 32-bit [FileMode]. *)
Definition os_IsDir (fInfo : os_FileInfo) : bool :=
  Z.testbit (os_Mode fInfo) 31.

(** [Utils]: constants and helpers of the package that are declared outside
    the files embedded here; the functions below take them as given. *)

Class Utils : Type := {
  ParentObjectId : uint32;
  fixSlash : string -> string;
  getFullPath : string -> string -> string;
  extension : string -> bool -> string;
  isDisallowedFiles : string -> bool;
  isSymlinkLocal : os_FileInfo -> bool
}.

(** Modelled from the spec: [PathSep] is declared outside the embedded
    files; paths are "/"-separated and the root is "/". *)
Definition PathSep : string := "/".

(** Modelled from the spec: [indexExists] is declared outside the embedded
    files; it tells whether the slice has an element at the index, that is
    whether "more segments remain in the split". *)
Definition indexExists {A : Type} (arr : list A) (index : nat) : bool :=
  (index <? length arr)%nat.

(** [strings.Split(s, PathSep)]: Go's library function at the one-byte
    separator; the pieces between the separators, one more than there are
    separators. *)
Fixpoint split_byte (c : ascii) (s : string) : list string :=
  match s with
  | EmptyString => [EmptyString]
  | String a s' =>
      if Ascii.eqb a c then EmptyString :: split_byte c s'
      else match split_byte c s' with
           | piece :: pieces => String a piece :: pieces
           | [] => [String a EmptyString]
           end
  end.

Definition PathSep_byte : ascii := "/"%char.

Definition strings_Split_PathSep (s : string) : list string :=
  split_byte PathSep_byte s.

(** [s[n:]] on a slice. *)
Definition slice_from {A : Type} (n : nat) (l : list A) : list A := skipn n l.

(** ** The world: store, visitor state and call log *)

Inductive Event : Type :=
| EvGetObjectInfo (handle : uint32)
| EvGetObjectPropValue (handle : uint32) (prop : Z)
| EvGetObjectHandles (storageId : uint32) (format : Z) (parent : uint32)
| EvSendObjectInfo (storageId parent : uint32) (info : ObjectInfo)
| EvSendObject (size : int64)
| EvDeleteObject (handle : uint32)
| EvVisit (handle : uint32).

Record World (D U : Type) : Type := mkWorld {
  w_dev : D;
  w_usr : U;
  w_log : list Event
}.
Arguments mkWorld {D U} _ _ _.
Arguments w_dev {D U} _.
Arguments w_usr {D U} _.
Arguments w_log {D U} _.

(** Computations over the world. *)
Definition M (D U A : Type) : Type := World D U -> A * World D U.

Definition ret {D U A : Type} (a : A) : M D U A := fun w => (a, w).

Definition bind {D U A B : Type} (m : M D U A) (k : A -> M D U B) : M D U B :=
  fun w => let (a, w') := m w in k a w'.

Notation "x <- m ;; k" := (bind m (fun x => k))
  (at level 61, m at next level, right associativity).

Definition is_mutation (ev : Event) : bool :=
  match ev with
  | EvSendObjectInfo _ _ _ | EvSendObject _ | EvDeleteObject _ => true
  | _ => false
  end.

Definition is_visit (ev : Event) : bool :=
  match ev with
  | EvVisit _ => true
  | _ => false
  end.

Definition visits (l : list Event) : nat := length (filter is_visit l).

(** A visitor ([WalkCb]): called with the handle, the descriptor and a nil
    error; it may keep state of its own and may fail.  It is handed the
    descriptor to read, and has no access to the store. *)
Definition WalkCb (U : Type) : Type :=
  uint32 -> FileInfo -> option error -> U -> option error * U.

(** [WalkDirectoryCb] of [helpers.go]: a visitor that returns nothing. *)
Definition WalkDirectoryCb (U : Type) : Type := uint32 -> FileInfo -> U -> U.

Section Calls.
Context {D U : Type} `{Device D}.

Definition record (ev : Event) (w : World D U) : World D U :=
  mkWorld (w_dev w) (w_usr w) (w_log w ++ [ev]).

Definition dev_GetObjectInfo (objectId : uint32) : M D U (result ObjectInfo) :=
  fun w => (getObjectInfo (w_dev w) objectId,
            record (EvGetObjectInfo objectId) w).

Definition dev_GetObjectPropUint64 (objectId : uint32) (prop : Z)
  : M D U (result uint64) :=
  fun w => (getObjectPropUint64 (w_dev w) objectId prop,
            record (EvGetObjectPropValue objectId prop) w).

Definition dev_GetObjectPropString (objectId : uint32) (prop : Z)
  : M D U (result string) :=
  fun w => (getObjectPropString (w_dev w) objectId prop,
            record (EvGetObjectPropValue objectId prop) w).

Definition dev_GetObjectHandles (storageId : uint32) (format : Z)
    (parent : uint32) : M D U (result (list uint32)) :=
  fun w => (getObjectHandles (w_dev w) storageId format parent,
            record (EvGetObjectHandles storageId format parent) w).

Definition dev_SendObjectInfo (storageId parent : uint32) (info : ObjectInfo)
  : M D U (uint32 * uint32 * uint32 * option error) :=
  fun w =>
    let (r, d') := sendObjectInfo (w_dev w) storageId parent info in
    (r, mkWorld d' (w_usr w)
          (w_log w ++ [EvSendObjectInfo storageId parent info])).

Definition dev_SendObject (fileBuf : list Byte.byte) (size : int64)
    (progress : int64 -> option error) : M D U (option error) :=
  fun w =>
    let (r, d') := sendObject (w_dev w) fileBuf size progress in
    (r, mkWorld d' (w_usr w) (w_log w ++ [EvSendObject size])).

Definition dev_DeleteObject (objectId : uint32) : M D U (option error) :=
  fun w =>
    let (r, d') := deleteObject (w_dev w) objectId in
    (r, mkWorld d' (w_usr w) (w_log w ++ [EvDeleteObject objectId])).

Definition call_cb (cb : WalkCb U) (objId : uint32) (fi : FileInfo)
  : M D U (option error) :=
  fun w =>
    let (r, u') := cb objId fi None (w_usr w) in
    (r, mkWorld (w_dev w) u' (w_log w ++ [EvVisit objId])).

Definition call_dir_cb (cb : WalkDirectoryCb U) (objId : uint32)
    (fi : FileInfo) : M D U unit :=
  fun w =>
    (tt, mkWorld (w_dev w) (cb objId fi (w_usr w))
           (w_log w ++ [EvVisit objId])).

(** *** Shared by both variants *)

(** [GetFileSize]: the two sources differ only in formatting [err] or
    [err.Error()] with [%v], which print the same text. *)
Definition GetFileSize (obj : ObjectInfo) (objectId : uint32)
  : M D U (int64 * option error) :=
  if CompressedSize obj =? 0xffffffff then
    r <- dev_GetObjectPropUint64 objectId OPC_ObjectSize ;;
    match r with
    | Err err =>
        ret (0, Some (FileObjectError
                        (Errorf ("GetObjectPropValue handle " ++ fmt_d objectId
                                 ++ " failed: " ++ Error err)%string)))
    | Ok val => ret (int64_of_uint64 val, None)
    end
  else ret (int64_of_uint32 (CompressedSize obj), None).

Definition isObjectADir (obj : ObjectInfo) : bool :=
  ObjectFormat obj =? OFC_Association.

End Calls.

(** Computations that may recurse on what the store returns: [None] stands
    for a run that has used up its recursion budget. *)
Definition P (D U A : Type) : Type := World D U -> option (A * World D U).

Definition pret {D U A : Type} (a : A) : P D U A := fun w => Some (a, w).

Definition pbind {D U A B : Type} (m : P D U A) (k : A -> P D U B) : P D U B :=
  fun w => match m w with
           | Some (a, w') => k a w'
           | None => None
           end.

Definition lift {D U A : Type} (m : M D U A) : P D U A := fun w => Some (m w).

Notation "x <-- m ;; k" := (pbind m (fun x => k))
  (at level 61, m at next level, right associativity).

(** [SizeProgressCb]: called with the total, the bytes sent, the handle and
    a nil error. *)
Definition SizeProgressCb : Type :=
  int64 -> int64 -> uint32 -> option error -> option error.

(** ** Properties of computations used in the statements *)

Definition is_read (ev : Event) : bool :=
  match ev with
  | EvGetObjectInfo _ => true
  | EvGetObjectPropValue _ _ => true
  | EvGetObjectHandles _ _ _ => true
  | _ => false
  end.

(** A computation that only queries the store: on a given store it yields
    one value and records one sequence of read calls, whatever the visitor
    state and the log, and leaves store and visitor state alone. *)
Definition reader {D U A : Type} (m : M D U A) : Prop :=
  forall d : D, exists (a : A) (evs : list Event),
    forallb is_read evs = true /\
    forall (u : U) (l : list Event),
      m (mkWorld d u l) = (a, mkWorld d u (l ++ evs)).

(** The value a computation yields on store [d]. *)
Definition yields {D U A : Type} (m : M D U A) (d : D) (a : A) : Prop :=
  forall w : World D U, w_dev w = d -> fst (m w) = a.

(** ** The [mtpx] package *)

Module Mtpx.
Section Defs.
Context {D U : Type} `{Device D} `{Utils}.

Definition GetObjectFromObjectId (objectId : uint32) (parentPath : string)
  : M D U (result FileInfo) :=
  if objectId =? ParentObjectId then
    ret (Ok {| Info := ObjectInfo_zero; Size := 0xFFFFFFFF; IsDir := true;
               ModTime := 0; Name := EmptyString; FullPath := "/";
               ParentPath := EmptyString; Extension := EmptyString;
               ParentId := 0; ObjectId := ParentObjectId |})
  else
    r <- dev_GetObjectInfo objectId ;;
    match r with
    | Err err => ret (Err (FileObjectError err))
    | Ok obj =>
        sz <- GetFileSize obj objectId ;;
        let size := fst sz in
        let isDir := isObjectADir obj in
        let filename := Filename obj in
        let _parentPath := fixSlash parentPath in
        let fullPath := getFullPath _parentPath filename in
        ret (Ok {| Info := obj; Size := size; IsDir := isDir;
                   ModTime := ModificationDate obj; Name := Filename obj;
                   FullPath := fullPath; ParentPath := _parentPath;
                   Extension := extension (Filename obj) isDir;
                   ParentId := ParentObject obj; ObjectId := objectId |})
    end.

(** The loop of [GetObjectFromParentIdAndFilename] over the handles. *)
Fixpoint lookup_loop (filename : string) (handles : list uint32)
  : M D U (result FileInfo) :=
  match handles with
  | [] => ret (Err (FileNotFoundError
                      (Errorf ("file not found: " ++ filename)%string)))
  | objectId :: rest =>
      r <- dev_GetObjectPropString objectId OPC_ObjectFileName ;;
      match r with
      | Err err => ret (Err (FileObjectError err))
      | Ok val =>
          if negb (String.eqb val filename) then lookup_loop filename rest
          else
            r' <- GetObjectFromObjectId objectId EmptyString ;;
            match r' with
            | Err err => ret (Err (FileObjectError err))
            | Ok fi =>
                if String.eqb (Name fi) filename then ret (Ok fi)
                else lookup_loop filename rest
            end
      end
  end.

Definition GetObjectFromParentIdAndFilename (storageId parentId : uint32)
    (filename : string) : M D U (result FileInfo) :=
  r <- dev_GetObjectHandles storageId GOH_ALL_ASSOCS parentId ;;
  match r with
  | Err err => ret (Err (FileObjectError err))
  | Ok handles => lookup_loop filename handles
  end.

Definition skipIndex : nat := 1.

(** The loop of [GetObjectFromPath] over [splittedFilePath[skipIndex:]],
    from index [i] on, followed by the statements after the loop. *)
Fixpoint path_loop (storageId : uint32) (fullPath _filePath : string)
    (splittedFilePath : list string) (i : nat) (segments : list string)
    (objectId : uint32) (resultCount : int) (fi : option FileInfo)
  : M D U (result FileInfo) :=
  match segments with
  | [] =>
      (* [resultCount < 1 || fi == nil], then the update of [fi.FullPath] *)
      match fi with
      | Some fi' =>
          if resultCount <? 1 then
            ret (Err (InvalidPathError
                        (Errorf ("file not found: " ++ fullPath)%string)))
          else ret (Ok (set_FullPath fi' _filePath))
      | None =>
          ret (Err (InvalidPathError
                      (Errorf ("file not found: " ++ fullPath)%string)))
      end
  | fName :: rest =>
      r <- GetObjectFromParentIdAndFilename storageId objectId fName ;;
      match r with
      | Err err =>
          match err with
          | FileNotFoundError _ =>
              ret (Err (InvalidPathError
                          (Errorf ("path not found: " ++ fullPath ++ newline
                                   ++ "reason: " ++ Error err)%string)))
          | _ => ret (Err err)
          end
      | Ok _fi =>
          if negb (IsDir _fi)
             && indexExists splittedFilePath (i + 1 + skipIndex)
          then ret (Err (InvalidPathError
                           (Errorf ("path not found: " ++ fullPath)%string)))
          else path_loop storageId fullPath _filePath splittedFilePath (S i)
                 rest (ObjectId _fi) (int_add resultCount 1) (Some _fi)
      end
  end.

Definition GetObjectFromPath (storageId : uint32) (fullPath : string)
  : M D U (result FileInfo) :=
  if String.eqb fullPath EmptyString then
    ret (Err (InvalidPathError
                (Errorf ("path does not exists. path: " ++ fullPath)%string)))
  else
    let _filePath := fixSlash fullPath in
    if String.eqb _filePath PathSep then
      GetObjectFromObjectId ParentObjectId EmptyString
    else
      let splittedFilePath := strings_Split_PathSep _filePath in
      path_loop storageId fullPath _filePath splittedFilePath 0
        (slice_from skipIndex splittedFilePath) ParentObjectId 0 None.

Definition GetObjectFromObjectIdOrPath (storageId objectId : uint32)
    (fullPath : string) : M D U (result FileInfo) :=
  let _objectId := objectId in
  if (_objectId =? 0) && String.eqb fullPath EmptyString then
    ret (Err (InvalidPathError
                (Errorf
                   ("invalid path: " ++ fullPath
                    ++ ". both objectId and fullPath cannot be empty")%string)))
  else if _objectId =? 0 then
    fp <- GetObjectFromPath storageId fullPath ;;
    match fp with
    | Err err => ret (Err err)
    | Ok fp' => ret (Ok fp')
    end
  else
    fo <- GetObjectFromObjectId _objectId fullPath ;;
    match fo with
    | Err err => ret (Err err)
    | Ok fo' => ret (Ok fo')
    end.

(** Modelled from the spec: [DeleteFile] is declared outside the embedded
    files; it deletes the object through the store's [deleteObject] and
    propagates a deletion failure. *)
Definition DeleteFile (storageId objectId : uint32) (fullPath : string)
  : M D U (option error) :=
  dev_DeleteObject objectId.

(** The tail of [handleMakeFile]: create the object handle, then send the
    bytes. *)
Definition handleMakeFile_send (storageId : uint32) (obj : ObjectInfo)
    (fInfo_Size : int64) (fileBuf : list Byte.byte)
    (progressCb : SizeProgressCb) : M D U (uint32 * option error) :=
  r <- dev_SendObjectInfo storageId (ParentObject obj) obj ;;
  let '(_, _, objId, err) := r in
  match err with
  | Some e => ret (objId, Some (SendObjectError e))
  | None =>
      let size := fInfo_Size in
      err' <- dev_SendObject fileBuf size
                (fun sent => match progressCb size sent objId None with
                             | Some e => Some e
                             | None => None
                             end) ;;
      match err' with
      | Some e => ret (objId, Some (SendObjectError e))
      | None => ret (objId, None)
      end
  end.

Definition handleMakeFile (storageId : uint32) (obj : ObjectInfo)
    (fInfo_Size : int64) (fileBuf : list Byte.byte)
    (overwriteExisting : bool) (progressCb : SizeProgressCb)
  : M D U (uint32 * option error) :=
  r <- GetObjectFromParentIdAndFilename storageId (ParentObject obj)
         (Filename obj) ;;
  match r with
  | Ok fi =>
      if negb overwriteExisting then ret (ObjectId fi, None)
      else
        e <- DeleteFile storageId (ObjectId fi) EmptyString ;;
        match e with
        | Some err => ret (0, Some err)
        | None =>
            handleMakeFile_send storageId obj fInfo_Size fileBuf progressCb
        end
  | Err err =>
      match err with
      | FileNotFoundError _ =>
          handleMakeFile_send storageId obj fInfo_Size fileBuf progressCb
      | _ => ret (0, Some err)
      end
  end.

(** The loop of [proccessWalk] over the handles; [walk] is the recursive
    call. *)
Fixpoint walk_loop (walk : uint32 -> string -> P D U (int * option error))
    (fullPath : string) (recursive skipDisallowedFiles : bool)
    (cb : WalkCb U) (handles : list uint32) (totalFiles : int)
  : P D U (int * option error) :=
  match handles with
  | [] => pret (totalFiles, None)
  | objId :: rest =>
      r <-- lift (GetObjectFromObjectId objId fullPath) ;;
      match r with
      | Err _ =>
          walk_loop walk fullPath recursive skipDisallowedFiles cb rest
            totalFiles
      | Ok fi =>
          if skipDisallowedFiles && isDisallowedFiles (Name fi) then
            walk_loop walk fullPath recursive skipDisallowedFiles cb rest
              totalFiles
          else
            let totalFiles := int_add totalFiles 1 in
            err <-- lift (call_cb cb objId fi) ;;
            match err with
            | Some e => pret (totalFiles, Some e)
            | None =>
                if negb recursive then
                  walk_loop walk fullPath recursive skipDisallowedFiles cb
                    rest totalFiles
                else if negb (IsDir fi) then
                  walk_loop walk fullPath recursive skipDisallowedFiles cb
                    rest totalFiles
                else
                  sub <-- walk objId (FullPath fi) ;;
                  let '(_totalFiles, err') := sub in
                  match err' with
                  | Some e => pret (totalFiles, Some e)
                  | None =>
                      walk_loop walk fullPath recursive skipDisallowedFiles
                        cb rest (int_add totalFiles _totalFiles)
                  end
            end
      end
  end.

(** [proccessWalk]; [fuel] bounds the depth of the recursion, which
    follows the handles the store returns. *)
Fixpoint proccessWalk (fuel : nat) (storageId objectId : uint32)
    (fullPath : string) (recursive skipDisallowedFiles : bool)
    (cb : WalkCb U) : P D U (int * option error) :=
  match fuel with
  | O => fun _ => None
  | S fuel' =>
      r <-- lift (GetObjectFromObjectIdOrPath storageId objectId fullPath) ;;
      match r with
      | Err err => pret (0, Some err)
      | Ok fi =>
          hs <-- lift (dev_GetObjectHandles storageId GOH_ALL_ASSOCS
                         (ObjectId fi)) ;;
          match hs with
          | Err err => pret (0, Some (ListDirectoryError err))
          | Ok handles =>
              walk_loop
                (fun objId path =>
                   proccessWalk fuel' storageId objId path recursive
                     skipDisallowedFiles cb)
                fullPath recursive skipDisallowedFiles cb handles 0
          end
      end
  end.

(** Resolution of a path reaches segment [i] with the handle [objectId]:
    the segments before [i] were looked up one after the other, each under
    the handle of the one before, and none stopped the loop. *)
Inductive reaches (d : D) (storageId : uint32) (segments : list string)
  : nat -> uint32 -> Prop :=
| reaches_start : reaches d storageId segments 0 ParentObjectId
| reaches_next (i : nat) (objectId : uint32) (fName : string) (fi : FileInfo) :
    reaches d storageId segments i objectId ->
    nth_error segments i = Some fName ->
    yields (U := U) (GetObjectFromParentIdAndFilename storageId objectId fName)
      d (Ok fi) ->
    IsDir fi = true \/ nth_error segments (S i) = None ->
    reaches d storageId segments (S i) (ObjectId fi).

(** One frame of the walk runs over [handles] from world [w] to world
    [w'] without returning: it visits [k] of them and the recursive walks
    it completes return counts that sum to [s]. *)
Inductive frame_run (walk : uint32 -> string -> P D U (int * option error))
    (fullPath : string) (recursive skipDisallowedFiles : bool) (cb : WalkCb U)
  : list uint32 -> World D U -> nat -> Z -> World D U -> Prop :=
| frame_done (w : World D U) :
    frame_run walk fullPath recursive skipDisallowedFiles cb [] w 0 0 w
| frame_unreadable objId rest w e w1 k s w' :
    GetObjectFromObjectId objId fullPath w = (Err e, w1) ->
    frame_run walk fullPath recursive skipDisallowedFiles cb rest w1 k s w' ->
    frame_run walk fullPath recursive skipDisallowedFiles cb (objId :: rest)
      w k s w'
| frame_excluded objId rest w fi w1 k s w' :
    GetObjectFromObjectId objId fullPath w = (Ok fi, w1) ->
    skipDisallowedFiles && isDisallowedFiles (Name fi) = true ->
    frame_run walk fullPath recursive skipDisallowedFiles cb rest w1 k s w' ->
    frame_run walk fullPath recursive skipDisallowedFiles cb (objId :: rest)
      w k s w'
| frame_visit objId rest w fi w1 w2 k s w' :
    GetObjectFromObjectId objId fullPath w = (Ok fi, w1) ->
    skipDisallowedFiles && isDisallowedFiles (Name fi) = false ->
    call_cb cb objId fi w1 = (None, w2) ->
    negb recursive || negb (IsDir fi) = true ->
    frame_run walk fullPath recursive skipDisallowedFiles cb rest w2 k s w' ->
    frame_run walk fullPath recursive skipDisallowedFiles cb (objId :: rest)
      w (S k) s w'
| frame_descend objId rest w fi w1 w2 n w3 k s w' :
    GetObjectFromObjectId objId fullPath w = (Ok fi, w1) ->
    skipDisallowedFiles && isDisallowedFiles (Name fi) = false ->
    call_cb cb objId fi w1 = (None, w2) ->
    recursive = true ->
    IsDir fi = true ->
    walk objId (FullPath fi) w2 = Some ((n, None), w3) ->
    frame_run walk fullPath recursive skipDisallowedFiles cb rest w3 k s w' ->
    frame_run walk fullPath recursive skipDisallowedFiles cb (objId :: rest)
      w (S k) (n + s) w'.

(** [handleMakeDirectory]; [now] is what [time.Now()] returns. *)
Definition handleMakeDirectory (now : Time) (storageId parentId : uint32)
    (filename : string) : M D U (uint32 * option error) :=
  let send := {| StorageID := storageId; ObjectFormat := OFC_Association;
                 CompressedSize := 0; ParentObject := parentId;
                 Filename := filename; ModificationDate := now |} in
  r <- dev_SendObjectInfo storageId parentId send ;;
  let '(_, _, objId, err) := r in
  match err with
  | Some e => ret (0, Some (SendObjectError e))
  | None => ret (objId, None)
  end.

End Defs.
End Mtpx.

(** ** The [main] package variant ([helpers.go]) *)

Module Main.
Section Defs.
Context {D U : Type} `{Device D} `{Utils}.

Definition GetObjectFromObjectId (objectId : uint32) (parentPath : string)
  : M D U (result FileInfo) :=
  if objectId =? ParentObjectId then
    ret (Ok {| Info := ObjectInfo_zero; Size := 0; IsDir := true;
               ModTime := 0; Name := EmptyString; FullPath := "/";
               ParentPath := EmptyString; Extension := EmptyString;
               ParentId := 0; ObjectId := ParentObjectId |})
  else
    r <- dev_GetObjectInfo objectId ;;
    match r with
    | Err err => ret (Err (FileObjectError err))
    | Ok obj =>
        sz <- GetFileSize obj objectId ;;
        let size := fst sz in
        let isDir := isObjectADir obj in
        let filename := Filename obj in
        let _parentPath := fixSlash parentPath in
        let fullPath := getFullPath _parentPath filename in
        ret (Ok {| Info := obj; Size := size; IsDir := isDir;
                   ModTime := ModificationDate obj; Name := Filename obj;
                   FullPath := fullPath; ParentPath := _parentPath;
                   Extension := extension (Filename obj) isDir;
                   ParentId := ParentObject obj; ObjectId := objectId |})
    end.

(** The loop of [GetObjectFromParentIdAndFilename] over the handles; the
    results are [(rObjectId, rIsDir)]. *)
Fixpoint lookup_loop (filename : string) (handles : list uint32)
  : M D U (result (uint32 * bool)) :=
  match handles with
  | [] => ret (Err (FileNotFoundError
                      (Errorf ("file not found: " ++ filename)%string)))
  | objectId :: rest =>
      r <- dev_GetObjectInfo objectId ;;
      match r with
      | Err err => ret (Err (FileObjectError err))
      | Ok obj =>
          if String.eqb (Filename obj) filename
          then ret (Ok (objectId, isObjectADir obj))
          else lookup_loop filename rest
      end
  end.

Definition GetObjectFromParentIdAndFilename (storageId parentId : uint32)
    (filename : string) : M D U (result (uint32 * bool)) :=
  r <- dev_GetObjectHandles storageId GOH_ALL_ASSOCS parentId ;;
  match r with
  | Err err => ret (Err (FileObjectError err))
  | Ok handles => lookup_loop filename handles
  end.

Definition skipIndex : nat := 1.

(** The loop of [GetObjectFromPath], from index [i] on, followed by the
    statements after the loop. *)
Fixpoint path_loop (storageId : uint32) (fullPath : string)
    (splittedFilePath : list string) (i : nat) (segments : list string)
    (parentId : uint32) (isDir : bool) (resultCount : int)
  : M D U (result (uint32 * bool)) :=
  match segments with
  | [] =>
      if resultCount <? 1 then
        ret (Err (InvalidPathError
                    (Errorf ("file not found: " ++ fullPath)%string)))
      else ret (Ok (parentId, isDir))
  | fName :: rest =>
      r <- GetObjectFromParentIdAndFilename storageId parentId fName ;;
      match r with
      | Err err =>
          match err with
          | FileNotFoundError _ =>
              ret (Err (InvalidPathError
                          (Errorf ("path not found: " ++ fullPath ++ newline
                                   ++ "reason: " ++ Error err)%string)))
          | _ => ret (Err err)
          end
      | Ok (objectId, _isDir) =>
          if negb _isDir && indexExists splittedFilePath (i + 1 + skipIndex)
          then ret (Err (InvalidPathError
                           (Errorf ("path not found: " ++ fullPath)%string)))
          else path_loop storageId fullPath splittedFilePath (S i) rest
                 objectId _isDir (int_add resultCount 1)
      end
  end.

Definition GetObjectFromPath (storageId : uint32) (fullPath : string)
  : M D U (result (uint32 * bool)) :=
  let _filePath := fixSlash fullPath in
  if String.eqb _filePath PathSep then ret (Ok (ParentObjectId, true))
  else
    let splittedFilePath := strings_Split_PathSep _filePath in
    path_loop storageId fullPath splittedFilePath 0
      (slice_from skipIndex splittedFilePath) ParentObjectId true 0.

(** Resolution of a path reaches segment [i] with the handle [parentId]. *)
Inductive reaches (d : D) (storageId : uint32) (segments : list string)
  : nat -> uint32 -> Prop :=
| reaches_start : reaches d storageId segments 0 ParentObjectId
| reaches_next (i : nat) (parentId : uint32) (fName : string)
    (objectId : uint32) (isDir : bool) :
    reaches d storageId segments i parentId ->
    nth_error segments i = Some fName ->
    yields (U := U) (GetObjectFromParentIdAndFilename storageId parentId fName)
      d (Ok (objectId, isDir)) ->
    isDir = true \/ nth_error segments (S i) = None ->
    reaches d storageId segments (S i) objectId.

(** [GetObjectFromObjectIdOrPath] of [helpers.go]; the results are
    [(rObjectId, rIsDir, rError)].  Every failing return of
    [GetObjectFromPath] carries [false] for [rIsDir]. *)
Definition GetObjectFromObjectIdOrPath (storageId objectId : uint32)
    (fullPath : string) : M D U (uint32 * bool * option error) :=
  let _objectId := objectId in
  let isDir := false in
  if (_objectId =? 0) && String.eqb fullPath EmptyString then
    ret (0, isDir,
         Some (InvalidPathError
                 (Errorf
                    ("invalid path: " ++ fullPath
                     ++ ". both objectId and fullPath cannot be empty"
                    )%string)))
  else if _objectId =? 0 then
    r <- GetObjectFromPath storageId fullPath ;;
    match r with
    | Err err => ret (0, false, Some err)
    | Ok (objId, _isDir) => ret (objId, _isDir, None)
    end
  else
    f <- GetObjectFromObjectId _objectId fullPath ;;
    match f with
    | Err err => ret (0, isDir, Some err)
    | Ok f' => ret (_objectId, IsDir f', None)
    end.

(** [FileExists]; the results are [(rExists, rIsDir, rObjectId)]. *)
Definition FileExists (storageId objectId : uint32) (filePath : string)
  : M D U (bool * bool * uint32) :=
  r <- GetObjectFromObjectIdOrPath storageId objectId filePath ;;
  let '(_objectId, isDir, err) := r in
  match err with
  | Some _ => ret (false, isDir, _objectId)
  | None => ret (true, isDir, _objectId)
  end.

(** [handleMakeDirectory]; [now] is what [time.Now()] returns. *)
Definition handleMakeDirectory (now : Time) (storageId parentId : uint32)
    (filename : string) : M D U (uint32 * option error) :=
  let send := {| StorageID := storageId; ObjectFormat := OFC_Association;
                 CompressedSize := 0; ParentObject := parentId;
                 Filename := filename; ModificationDate := now |} in
  r <- dev_SendObjectInfo storageId parentId send ;;
  let '(_, _, objId, err) := r in
  match err with
  | Some e => ret (0, Some (SendObjectError e))
  | None => ret (objId, None)
  end.

(** The loop of [proccessWalkDirectory] over the handles; [walk] is the
    recursive call. *)
Fixpoint walk_loop (walk : uint32 -> string -> P D U (int * option error))
    (fullPath : string) (recursive : bool) (cb : WalkDirectoryCb U)
    (handles : list uint32) (totalFiles : int)
  : P D U (int * option error) :=
  match handles with
  | [] => pret (totalFiles, None)
  | objId :: rest =>
      r <-- lift (GetObjectFromObjectId objId fullPath) ;;
      match r with
      | Err _ => walk_loop walk fullPath recursive cb rest totalFiles
      | Ok fi =>
          let totalFiles := int_add totalFiles 1 in
          _ <-- lift (call_dir_cb cb objId fi) ;;
          if negb recursive then
            walk_loop walk fullPath recursive cb rest totalFiles
          else if negb (IsDir fi) then
            walk_loop walk fullPath recursive cb rest totalFiles
          else
            sub <-- walk objId (FullPath fi) ;;
            let '(_totalFiles, err) := sub in
            match err with
            | Some _ => walk_loop walk fullPath recursive cb rest totalFiles
            | None =>
                walk_loop walk fullPath recursive cb rest
                  (int_add totalFiles _totalFiles)
            end
      end
  end.


End Defs.
End Main.

(** ** The local walk

    The local tree as [filepath.Walk] sees it: an entry whose [Lstat]
    succeeds carries its info, the outcome of reading it as a directory and
    its children in the order [Walk] lists them; [LBroken] is an entry whose
    [Lstat] fails. *)

#[warnings="-register-all"]
Inductive LocalNode : Type :=
| LNode (info : os_FileInfo) (readErr : option error)
    (children : list LocalNode)
| LBroken (err : error).

(** What [Walk] hands to its function: an info with the error of reading the
    directory, or no info and the [Lstat] error.  The path argument, which
    the callback of [walkLocalFiles] does not read, is left out. *)
Inductive WalkArg : Type :=
| Entry (fInfo : os_FileInfo) (err : option error)
| NoInfo (err : error).

Definition is_SkipDir (e : error) : bool :=
  match e with
  | SkipDir => true
  | _ => false
  end.

Definition is_some {A : Type} (o : option A) : bool :=
  match o with
  | Some _ => true
  | None => false
  end.

Section FilepathWalk.
Context {S : Type}.
Variable walkFn : WalkArg -> S -> option error * S.

(** [walk] of Go's [path/filepath]: a non-directory is handed to the
    function; a directory is handed to it and then, unless reading it or
    the function failed, its children are walked in order. *)
Fixpoint filepath_walk (node : LocalNode) (st : S) : option error * S :=
  match node with
  | LBroken err => walkFn (NoInfo err) st
  | LNode info readErr children =>
      if negb (os_IsDir info) then walkFn (Entry info None) st
      else
        let (err1, st1) := walkFn (Entry info readErr) st in
        if is_some readErr || is_some err1 then (err1, st1)
        else
          (fix names (l : list LocalNode) (st : S) : option error * S :=
             match l with
             | [] => (None, st)
             | child :: rest =>
                 match child with
                 | LBroken err =>
                     let (e, st') := walkFn (NoInfo err) st in
                     match e with
                     | Some e' =>
                         if negb (is_SkipDir e') then (Some e', st')
                         else names rest st'
                     | None => names rest st'
                     end
                 | LNode fileInfo _ _ =>
                     let (e, st') := filepath_walk child st in
                     match e with
                     | Some e' =>
                         if negb (os_IsDir fileInfo) || negb (is_SkipDir e')
                         then (Some e', st')
                         else names rest st'
                     | None => names rest st'
                     end
                 end
             end) children st1
  end.

(** The loop of [walk] over the children of a directory, on its own. *)
Fixpoint walk_names (l : list LocalNode) (st : S) : option error * S :=
  match l with
  | [] => (None, st)
  | child :: rest =>
      match child with
      | LBroken err =>
          let (e, st') := walkFn (NoInfo err) st in
          match e with
          | Some e' =>
              if negb (is_SkipDir e') then (Some e', st')
              else walk_names rest st'
          | None => walk_names rest st'
          end
      | LNode fileInfo _ _ =>
          let (e, st') := filepath_walk child st in
          match e with
          | Some e' =>
              if negb (os_IsDir fileInfo) || negb (is_SkipDir e')
              then (Some e', st')
              else walk_names rest st'
          | None => walk_names rest st'
          end
      end
  end.

(** [filepath.Walk(root, walkFn)], with [root] already looked up. *)
Definition filepath_Walk (root : LocalNode) (st : S) : option error * S :=
  let (err, st') :=
    match root with
    | LBroken e => walkFn (NoInfo e) st
    | LNode _ _ _ => filepath_walk root st
    end in
  match err with
  | Some e => if is_SkipDir e then (None, st') else (Some e, st')
  | None => (None, st')
  end.

End FilepathWalk.

(** [LocalWalkCb]: called with the info and a nil error. *)
Definition LocalWalkCb (U : Type) : Type :=
  os_FileInfo -> option error -> U -> option error * U.

(** The variables [walkLocalFiles] updates from its closure, the visitor's
    state and the infos handed to the visitor so far. *)
Record LocalTotals (U : Type) : Type := mkLocalTotals {
  totalFiles : int64;
  totalDirectories : int64;
  totalSize : int64;
  l_usr : U;
  l_visited : list os_FileInfo
}.
Arguments mkLocalTotals {U} _ _ _ _ _.
Arguments totalFiles {U} _.
Arguments totalDirectories {U} _.
Arguments totalSize {U} _.
Arguments l_usr {U} _.
Arguments l_visited {U} _.

Section LocalWalk.
Context {U : Type} `{Utils}.

(** The function literal [walkLocalFiles] passes to [filepath.Walk]. *)
Definition walkLocalFiles_fn (cb : LocalWalkCb U) (arg : WalkArg)
    (st : LocalTotals U) : option error * LocalTotals U :=
  match arg with
  | NoInfo err => (Some err, st)
  | Entry _ (Some err) => (Some err, st)
  | Entry fInfo None =>
      let name := os_Name fInfo in
      if isSymlinkLocal fInfo then (None, st)
      else if isDisallowedFiles name then (None, st)
      else
        let (r, u') := cb fInfo None (l_usr st) in
        let st' := mkLocalTotals (totalFiles st) (totalDirectories st)
                     (totalSize st) u' (l_visited st ++ [fInfo]) in
        match r with
        | Some err => (Some err, st')
        | None =>
            if negb (os_IsDir fInfo) then
              (None, mkLocalTotals (int_add (totalFiles st') 1)
                       (totalDirectories st')
                       (int_add (totalSize st') (os_Size fInfo))
                       (l_usr st') (l_visited st'))
            else
              (None, mkLocalTotals (totalFiles st')
                       (int_add (totalDirectories st') 1)
                       (totalSize st') (l_usr st') (l_visited st'))
        end
  end.

(** [walkLocalFiles]; [fs] gives the local entry a source path names. *)
Fixpoint walkLocalFiles_loop (fs : string -> LocalNode) (cb : LocalWalkCb U)
    (sources : list string) (st : LocalTotals U)
  : option error * LocalTotals U :=
  match sources with
  | [] => (None, st)
  | source :: rest =>
      let (err, st') := filepath_Walk (walkLocalFiles_fn cb) (fs source) st in
      match err with
      | Some e =>
          match e with
          | PathError permission _ =>
              if permission then (Some (FilePermissionError e), st')
              else (Some (LocalFileError e), st')
          | _ => (Some e, st')
          end
      | None => walkLocalFiles_loop fs cb rest st'
      end
  end.

Definition walkLocalFiles (fs : string -> LocalNode) (sources : list string)
    (cb : LocalWalkCb U) (u : U) : option error * LocalTotals U :=
  walkLocalFiles_loop fs cb sources (mkLocalTotals 0 0 0 u []).

End LocalWalk.

(** [makeLocalDirectory]; [os_MkdirAll] stands for [os.MkdirAll] on the
    local file system, [newLocalDirectoryMode] for the package constant. *)
Definition makeLocalDirectory (os_MkdirAll : string -> Z -> option error)
    (newLocalDirectoryMode : Z) (filename : string) : option error :=
  match os_MkdirAll filename newLocalDirectoryMode with
  | Some err =>
      match err with
      | PathError permission _ =>
          if permission then Some (FilePermissionError err)
          else Some (LocalFileError err)
      | _ => Some err
      end
  | None => None
  end.

(** ** Vocabulary of the further statements *)

(** The events a computation adds are neither creations nor deletions. *)
Definition no_mutation (evs : list Event) : Prop :=
  existsb is_mutation evs = false.

(** A store whose name property agrees with its info records: every handle
    it lists is a real object (not the root handle) whose info can be read
    and whose file-name property is the [Filename] of that info. *)
Definition names_agree {D : Type} `{Device D} `{Utils} (d : D) : Prop :=
  forall (storageId parent : uint32) (handles : list uint32),
    getObjectHandles d storageId GOH_ALL_ASSOCS parent = Ok handles ->
    Forall (fun h =>
              h <> ParentObjectId /\
              exists obj, getObjectInfo d h = Ok obj /\
                          getObjectPropString d h OPC_ObjectFileName
                          = Ok (Filename obj))
           handles.

(** What the [helpers.go] variant reports of a descriptor. *)
Definition handle_and_kind (r : result FileInfo) : result (uint32 * bool) :=
  match r with
  | Ok fi => Ok (ObjectId fi, IsDir fi)
  | Err e => Err e
  end.




(** World [w'] comes after [w] by observation only: the store is the same
    and the calls added to the log are neither creations nor deletions. *)
Definition observes {D U : Type} (w w' : World D U) : Prop :=
  w_dev w' = w_dev w /\
  exists evs, w_log w' = w_log w ++ evs /\ no_mutation evs.








(** ** A sample store and sample helpers, for the examples *)

Record SampleObject : Type := mkSampleObject {
  so_handle : uint32;
  so_info : ObjectInfo;
  so_size64 : result uint64
}.

Definition SampleStore : Type := list SampleObject.

Definition sample_find (d : SampleStore) (h : uint32) : option SampleObject :=
  find (fun o => so_handle o =? h) d.

Definition sample_next_handle (d : SampleStore) : uint32 :=
  1 + fold_right (fun o acc => Z.max (so_handle o) acc) 0 d.

#[export] Instance sample_device : Device SampleStore := {
  getObjectInfo d h :=
    match sample_find d h with
    | Some o => Ok (so_info o)
    | None => Err (ForeignError "no such object")
    end;
  getObjectPropUint64 d h _ :=
    match sample_find d h with
    | Some o => so_size64 o
    | None => Err (ForeignError "no such object")
    end;
  getObjectPropString d h _ :=
    match sample_find d h with
    | Some o => Ok (Filename (so_info o))
    | None => Err (ForeignError "no such object")
    end;
  getObjectHandles d storageId _ parent :=
    Ok (map so_handle
          (filter (fun o => (ParentObject (so_info o) =? parent)
                            && (StorageID (so_info o) =? storageId)) d));
  sendObjectInfo d storageId parent info :=
    let h := sample_next_handle d in
    ((storageId, parent, h, None),
     d ++ [mkSampleObject h info (Ok (CompressedSize info))]);
  sendObject d _ size progress := (progress size, d);
  deleteObject d h := (None, filter (fun o => negb (so_handle o =? h)) d)
}.

Fixpoint sample_slashes (s : string) : string :=
  match s with
  | EmptyString => EmptyString
  | String c s' =>
      String (if Ascii.eqb c "\"%char then "/"%char else c) (sample_slashes s')
  end.

Fixpoint sample_drop_leading (s : string) : string :=
  match s with
  | String c s' => if Ascii.eqb c "/"%char then sample_drop_leading s' else s
  | EmptyString => EmptyString
  end.

Fixpoint sample_drop_trailing (s : string) : string :=
  match s with
  | EmptyString => EmptyString
  | String c EmptyString => if Ascii.eqb c "/"%char then EmptyString else s
  | String c s' => String c (sample_drop_trailing s')
  end.

(** Modelled from the spec: [fixSlash] turns backslashes into slashes, keeps
    one leading slash and strips a trailing slash except for the root. *)
Definition sample_fixSlash (s : string) : string :=
  String "/"%char
    (sample_drop_trailing (sample_drop_leading (sample_slashes s))).

(** Modelled from the spec: [getFullPath] joins the parent path and the name
    with one separator. *)
Definition sample_getFullPath (parent name : string) : string :=
  sample_fixSlash (parent ++ "/" ++ name)%string.

Fixpoint sample_after_last_dot (s : string) : option string :=
  match s with
  | EmptyString => None
  | String c s' =>
      match sample_after_last_dot s' with
      | Some e => Some e
      | None => if Ascii.eqb c "."%char then Some s' else None
      end
  end.

(** Modelled from the spec: [extension] is empty for a directory, else what
    follows the last dot of the name. *)
Definition sample_extension (name : string) (isDir : bool) : string :=
  if isDir then EmptyString
  else match sample_after_last_dot name with
       | Some e => e
       | None => EmptyString
       end.

(** Modelled from the spec: the exclusion predicate is a fixed set of
    names; the sample set holds two. *)
Definition sample_isDisallowedFiles (name : string) : bool :=
  String.eqb name ".DS_Store" || String.eqb name ".Trashes".

#[export] Instance sample_utils : Utils := {
  ParentObjectId := 0xFFFFFFFF;
  fixSlash := sample_fixSlash;
  getFullPath := sample_getFullPath;
  extension := sample_extension;
  isDisallowedFiles := sample_isDisallowedFiles;
  isSymlinkLocal fInfo := Z.testbit (os_Mode fInfo) 27
}.

Definition sample_file (h parent : uint32) (name : string) (size : uint32)
  : SampleObject :=
  mkSampleObject h
    {| StorageID := 1; ObjectFormat := 0x3000; CompressedSize := size;
       ParentObject := parent; Filename := name; ModificationDate := 0 |}
    (Ok size).

Definition sample_dir (h parent : uint32) (name : string) : SampleObject :=
  mkSampleObject h
    {| StorageID := 1; ObjectFormat := OFC_Association; CompressedSize := 0;
       ParentObject := parent; Filename := name; ModificationDate := 0 |}
    (Ok 0).

(** A large file: its compact size is the sentinel, the precise size is
    what the property query returns. *)
Definition sample_big (h parent : uint32) (name : string)
    (precise : result uint64) : SampleObject :=
  mkSampleObject h
    {| StorageID := 1; ObjectFormat := 0x3000; CompressedSize := 0xffffffff;
       ParentObject := parent; Filename := name; ModificationDate := 0 |}
    precise.

(** /docs/{a.txt, .DS_Store, sub/{c.txt}, b.txt}, /movie.mkv, /broken.bin,
    /edge.bin *)
Definition sample_store : SampleStore :=
  [ sample_dir 10 0xFFFFFFFF "docs";
    sample_file 11 10 "a.txt" 5;
    sample_file 12 10 ".DS_Store" 6;
    sample_dir 13 10 "sub";
    sample_file 14 10 "b.txt" 7;
    sample_file 15 13 "c.txt" 8;
    sample_big 20 0xFFFFFFFF "movie.mkv" (Ok 6000000000);
    sample_big 21 0xFFFFFFFF "broken.bin" (Err (ForeignError "usb stall"));
    sample_big 22 0xFFFFFFFF "edge.bin" (Ok 0xFFFFFFFF) ].

Definition sample_world (u : nat) : World SampleStore nat :=
  mkWorld sample_store u [].

(** A visitor that counts its calls and fails on the [k]-th. *)
Definition sample_fail_at (k : nat) : WalkCb nat :=
  fun _ _ _ n =>
    if Nat.eqb (S n) k then (Some (ForeignError "stop"), S n) else (None, S n).

(** A visitor that counts its calls and never fails. *)
Definition sample_count : WalkCb nat := fun _ _ _ n => (None, S n).


Definition sample_no_fi : FileInfo :=
  mkFileInfo ObjectInfo_zero 0 false 0 EmptyString EmptyString EmptyString
    EmptyString 0 0.

(** The descriptors name lookup returns on the sample store for "docs"
    under the root, as each variant reports them. *)
Definition sample_docs_fi : FileInfo :=
  Eval vm_compute in
    match fst (Mtpx.GetObjectFromParentIdAndFilename 1 ParentObjectId "docs"
                 (sample_world 0)) with
    | Ok fi => fi
    | Err _ => sample_no_fi
    end.

Definition sample_a_txt_fi : FileInfo :=
  Eval vm_compute in
    match fst (Mtpx.GetObjectFromParentIdAndFilename 1 10 "a.txt"
                 (sample_world 0)) with
    | Ok fi => fi
    | Err _ => sample_no_fi
    end.


(** A sample local tree:
    photos/{.Trashes/{keep.txt}, a.jpg, link -> ...}. *)
Definition sample_mode_dir : Z := 2 ^ 31 + 493.
Definition sample_mode_file : Z := 420.
Definition sample_mode_symlink : Z := 2 ^ 27 + 511.

Definition sample_trashes : os_FileInfo :=
  mkOsFileInfo ".Trashes" 4096 sample_mode_dir.
Definition sample_keep : os_FileInfo :=
  mkOsFileInfo "keep.txt" 12 sample_mode_file.
Definition sample_photos : os_FileInfo :=
  mkOsFileInfo "photos" 4096 sample_mode_dir.
Definition sample_a_jpg : os_FileInfo :=
  mkOsFileInfo "a.jpg" 30 sample_mode_file.
Definition sample_link : os_FileInfo :=
  mkOsFileInfo "link" 9 sample_mode_symlink.

Definition sample_local_tree : LocalNode :=
  LNode sample_photos None
    [ LNode sample_trashes None [LNode sample_keep None []];
      LNode sample_a_jpg None [];
      LNode sample_link None [] ].

Definition sample_local_fs (path : string) : LocalNode :=
  if String.eqb path "/home/u/photos" then sample_local_tree
  else LBroken (PathError false "lstat: no such file or directory").

(** A local visitor that counts its calls and never fails. *)
Definition sample_local_count : LocalWalkCb nat := fun _ _ n => (None, S n).

(** A store that is not reachable: every call fails. *)
Definition offline_device : Device unit := {|
  getObjectInfo _ _ := Err (ForeignError "device offline");
  getObjectPropUint64 _ _ _ := Err (ForeignError "device offline");
  getObjectPropString _ _ _ := Err (ForeignError "device offline");
  getObjectHandles _ _ _ _ := Err (ForeignError "device offline");
  sendObjectInfo d _ _ _ :=
    ((0, 0, 0, Some (ForeignError "device offline")), d);
  sendObject d _ _ _ := (Some (ForeignError "device offline"), d);
  deleteObject d _ := (Some (ForeignError "device offline"), d)
|}.

Definition offline_world : World unit nat := mkWorld tt 0%nat [].

(** The sample store seen through a listing that also reports a handle,
    99, that no object answers to. *)
Definition ghost_device : Device SampleStore := {|
  getObjectInfo := getObjectInfo (Device := sample_device);
  getObjectPropUint64 := getObjectPropUint64 (Device := sample_device);
  getObjectPropString := getObjectPropString (Device := sample_device);
  getObjectHandles d storageId format parent :=
    match getObjectHandles (Device := sample_device) d storageId format parent
    with
    | Ok handles => Ok (99 :: handles)
    | Err e => Err e
    end;
  sendObjectInfo := sendObjectInfo (Device := sample_device);
  sendObject := sendObject (Device := sample_device);
  deleteObject := deleteObject (Device := sample_device)
|}.



(** A local visitor that counts its calls and answers [SkipDir] on every
    directory. *)
Definition sample_local_skip_dirs : LocalWalkCb nat :=
  fun fInfo _ n => if os_IsDir fInfo then (Some SkipDir, S n) else (None, S n).

(** * Facts *)

(** ** Arithmetic of the wrap-around *)

Lemma wrap64_small (z : Z) : - 2 ^ 63 <= z <= max_int -> wrap64 z = z.
Proof.
  unfold wrap64, max_int. intros Hz.
  rewrite Z.mod_small by lia. lia.
Qed.

Lemma wrap64_add_l (a b : Z) : wrap64 (wrap64 a + b) = wrap64 (a + b).
Proof.
  unfold wrap64.
  replace ((a + 2 ^ 63) mod 2 ^ 64 - 2 ^ 63 + b + 2 ^ 63)
    with ((a + 2 ^ 63) mod 2 ^ 64 + b) by lia.
  rewrite Zplus_mod_idemp_l.
  replace (a + 2 ^ 63 + b) with (a + b + 2 ^ 63) by lia.
  reflexivity.
Qed.

Lemma int_add_wrap (a b : Z) : int_add (wrap64 a) b = wrap64 (a + b).
Proof. unfold int_add. apply wrap64_add_l. Qed.

(** ** Computations that only read the store *)

Section Readers.
Context {D U : Type} `{Device D}.

Lemma reader_ret {A : Type} (a : A) : reader (D := D) (U := U) (ret a).
Proof.
  intros d. exists a, []. split; [reflexivity|].
  intros u l. unfold ret. now rewrite app_nil_r.
Qed.

Lemma reader_bind {A B : Type} (m : M D U A) (k : A -> M D U B) :
  reader m -> (forall a, reader (k a)) -> reader (bind m k).
Proof.
  intros Hm Hk d.
  destruct (Hm d) as (a & evs1 & R1 & E1).
  destruct (Hk a d) as (b & evs2 & R2 & E2).
  exists b, (evs1 ++ evs2). split.
  - rewrite forallb_app, R1, R2. reflexivity.
  - intros u l. unfold bind. rewrite E1, E2, app_assoc. reflexivity.
Qed.

Lemma reader_GetObjectInfo (h : uint32) :
  reader (D := D) (U := U) (dev_GetObjectInfo h).
Proof.
  intros d. exists (getObjectInfo d h), [EvGetObjectInfo h].
  split; [reflexivity|]. intros u l. reflexivity.
Qed.

Lemma reader_GetObjectPropUint64 (h : uint32) (prop : Z) :
  reader (D := D) (U := U) (dev_GetObjectPropUint64 h prop).
Proof.
  intros d.
  exists (getObjectPropUint64 d h prop), [EvGetObjectPropValue h prop].
  split; [reflexivity|]. intros u l. reflexivity.
Qed.

Lemma reader_GetObjectPropString (h : uint32) (prop : Z) :
  reader (D := D) (U := U) (dev_GetObjectPropString h prop).
Proof.
  intros d.
  exists (getObjectPropString d h prop), [EvGetObjectPropValue h prop].
  split; [reflexivity|]. intros u l. reflexivity.
Qed.

Lemma reader_GetObjectHandles (sid : uint32) (fmt : Z) (parent : uint32) :
  reader (D := D) (U := U) (dev_GetObjectHandles sid fmt parent).
Proof.
  intros d.
  exists (getObjectHandles d sid fmt parent),
         [EvGetObjectHandles sid fmt parent].
  split; [reflexivity|]. intros u l. reflexivity.
Qed.

Lemma reader_GetFileSize (obj : ObjectInfo) (h : uint32) :
  reader (D := D) (U := U) (GetFileSize obj h).
Proof.
  unfold GetFileSize. destruct (CompressedSize obj =? 0xffffffff).
  - apply reader_bind; [apply reader_GetObjectPropUint64|].
    intros [v|e]; apply reader_ret.
  - apply reader_ret.
Qed.

(** What a run of a reader looks like. *)
Lemma reader_run {A : Type} (m : M D U A) (w w' : World D U) (a : A) :
  reader m -> m w = (a, w') ->
  exists evs,
    forallb is_read evs = true /\
    w' = mkWorld (w_dev w) (w_usr w) (w_log w ++ evs) /\
    forall w2, w_dev w2 = w_dev w ->
      m w2 = (a, mkWorld (w_dev w2) (w_usr w2) (w_log w2 ++ evs)).
Proof.
  intros Hm Hrun. destruct (Hm (w_dev w)) as (a0 & evs & R & E).
  destruct w as [d u l]; simpl in *.
  rewrite E in Hrun. inversion Hrun; subst.
  exists evs. repeat split; auto.
  intros [d2 u2 l2]; simpl; intros ->. apply E.
Qed.

Lemma reader_yields {A : Type} (m : M D U A) (w : World D U) (a : A) :
  reader m -> fst (m w) = a -> yields m (w_dev w) a.
Proof.
  intros Hm Hfst w2 Hd.
  destruct (m w) as [a0 w'] eqn:E. simpl in Hfst. subst a0.
  destruct (reader_run m w w' a Hm E) as (evs & _ & _ & Hall).
  rewrite (Hall w2 Hd). reflexivity.
Qed.

Lemma yields_run {A : Type} (m : M D U A) (w : World D U) (a : A) :
  reader m -> yields m (w_dev w) a ->
  exists evs, forallb is_read evs = true /\
    m w = (a, mkWorld (w_dev w) (w_usr w) (w_log w ++ evs)).
Proof.
  intros Hm Hy. destruct (m w) as [a0 w'] eqn:E.
  destruct (reader_run m w w' a0 Hm E) as (evs & R & -> & _).
  exists evs. split; [assumption|].
  specialize (Hy w eq_refl). rewrite E in Hy. simpl in Hy. now subst.
Qed.

End Readers.

Section MtpxReaders.
Context {D U : Type} `{Device D} `{Utils}.

Lemma reader_Mtpx_describe (h : uint32) (p : string) :
  reader (D := D) (U := U) (Mtpx.GetObjectFromObjectId h p).
Proof.
  unfold Mtpx.GetObjectFromObjectId. destruct (h =? ParentObjectId).
  - apply reader_ret.
  - apply reader_bind; [apply reader_GetObjectInfo|].
    intros [obj|e]; [|apply reader_ret].
    apply reader_bind; [apply reader_GetFileSize|]. intros sz. apply reader_ret.
Qed.

Lemma reader_Mtpx_lookup_loop (filename : string) (handles : list uint32) :
  reader (D := D) (U := U) (Mtpx.lookup_loop filename handles).
Proof.
  induction handles as [|h rest IH]; simpl.
  - apply reader_ret.
  - apply reader_bind; [apply reader_GetObjectPropString|].
    intros [val|e]; [|apply reader_ret].
    destruct (negb (String.eqb val filename)); [exact IH|].
    apply reader_bind; [apply reader_Mtpx_describe|].
    intros [fi|e]; [|apply reader_ret].
    destruct (String.eqb (Name fi) filename); [apply reader_ret|exact IH].
Qed.

Lemma reader_Mtpx_lookup (sid parent : uint32) (filename : string) :
  reader (D := D) (U := U)
    (Mtpx.GetObjectFromParentIdAndFilename sid parent filename).
Proof.
  unfold Mtpx.GetObjectFromParentIdAndFilename.
  apply reader_bind; [apply reader_GetObjectHandles|].
  intros [hs|e]; [apply reader_Mtpx_lookup_loop|apply reader_ret].
Qed.

Lemma reader_Main_describe (h : uint32) (p : string) :
  reader (D := D) (U := U) (Main.GetObjectFromObjectId h p).
Proof.
  unfold Main.GetObjectFromObjectId. destruct (h =? ParentObjectId).
  - apply reader_ret.
  - apply reader_bind; [apply reader_GetObjectInfo|].
    intros [obj|e]; [|apply reader_ret].
    apply reader_bind; [apply reader_GetFileSize|]. intros sz. apply reader_ret.
Qed.

Lemma reader_Main_lookup_loop (filename : string) (handles : list uint32) :
  reader (D := D) (U := U) (Main.lookup_loop filename handles).
Proof.
  induction handles as [|h rest IH]; simpl.
  - apply reader_ret.
  - apply reader_bind; [apply reader_GetObjectInfo|].
    intros [obj|e]; [|apply reader_ret].
    destruct (String.eqb (Filename obj) filename); [apply reader_ret|exact IH].
Qed.

Lemma reader_Main_lookup (sid parent : uint32) (filename : string) :
  reader (D := D) (U := U)
    (Main.GetObjectFromParentIdAndFilename sid parent filename).
Proof.
  unfold Main.GetObjectFromParentIdAndFilename.
  apply reader_bind; [apply reader_GetObjectHandles|].
  intros [hs|e]; [apply reader_Main_lookup_loop|apply reader_ret].
Qed.

End MtpxReaders.

(** ** Describing an object *)

Section Describe.
Context {D U : Type} `{Device D} `{Utils}.

(** The descriptor built from an info record and a resolved size. *)
Lemma Mtpx_describe_object (objectId : uint32) (parentPath : string)
    (w : World D U) (obj : ObjectInfo) :
  objectId <> ParentObjectId ->
  getObjectInfo (w_dev w) objectId = Ok obj ->
  Mtpx.GetObjectFromObjectId objectId parentPath w =
    (Ok {| Info := obj;
           Size := fst (fst (GetFileSize obj objectId
                               (record (EvGetObjectInfo objectId) w)));
           IsDir := isObjectADir obj;
           ModTime := ModificationDate obj; Name := Filename obj;
           FullPath := getFullPath (fixSlash parentPath) (Filename obj);
           ParentPath := fixSlash parentPath;
           Extension := extension (Filename obj) (isObjectADir obj);
           ParentId := ParentObject obj; ObjectId := objectId |},
     snd (GetFileSize obj objectId (record (EvGetObjectInfo objectId) w))).
Proof.
  intros Hroot Hinfo. unfold Mtpx.GetObjectFromObjectId.
  apply Z.eqb_neq in Hroot. rewrite Hroot.
  unfold bind at 1. unfold dev_GetObjectInfo. rewrite Hinfo.
  unfold bind, ret.
  destruct (GetFileSize obj objectId (record (EvGetObjectInfo objectId) w))
    as [sz w']. reflexivity.
Qed.

Lemma Main_describe_object (objectId : uint32) (parentPath : string)
    (w : World D U) (obj : ObjectInfo) :
  objectId <> ParentObjectId ->
  getObjectInfo (w_dev w) objectId = Ok obj ->
  Main.GetObjectFromObjectId objectId parentPath w =
    (Ok {| Info := obj;
           Size := fst (fst (GetFileSize obj objectId
                               (record (EvGetObjectInfo objectId) w)));
           IsDir := isObjectADir obj;
           ModTime := ModificationDate obj; Name := Filename obj;
           FullPath := getFullPath (fixSlash parentPath) (Filename obj);
           ParentPath := fixSlash parentPath;
           Extension := extension (Filename obj) (isObjectADir obj);
           ParentId := ParentObject obj; ObjectId := objectId |},
     snd (GetFileSize obj objectId (record (EvGetObjectInfo objectId) w))).
Proof.
  intros Hroot Hinfo. unfold Main.GetObjectFromObjectId.
  apply Z.eqb_neq in Hroot. rewrite Hroot.
  unfold bind at 1. unfold dev_GetObjectInfo. rewrite Hinfo.
  unfold bind, ret.
  destruct (GetFileSize obj objectId (record (EvGetObjectInfo objectId) w))
    as [sz w']. reflexivity.
Qed.

Lemma GetFileSize_compact (obj : ObjectInfo) (objectId : uint32)
    (w : World D U) :
  CompressedSize obj <> 0xffffffff ->
  GetFileSize obj objectId w = ((CompressedSize obj, None), w).
Proof.
  intros Hc. unfold GetFileSize. apply Z.eqb_neq in Hc. rewrite Hc.
  reflexivity.
Qed.

Lemma GetFileSize_precise (obj : ObjectInfo) (objectId : uint32)
    (w : World D U) (v : uint64) :
  CompressedSize obj = 0xffffffff ->
  getObjectPropUint64 (w_dev w) objectId OPC_ObjectSize = Ok v ->
  GetFileSize obj objectId w =
    ((int64_of_uint64 v, None),
     record (EvGetObjectPropValue objectId OPC_ObjectSize) w).
Proof.
  intros Hc Hq. unfold GetFileSize. rewrite Hc, Z.eqb_refl.
  unfold bind, dev_GetObjectPropUint64. rewrite Hq. reflexivity.
Qed.

Lemma GetFileSize_failure (obj : ObjectInfo) (objectId : uint32)
    (w : World D U) (err : error) :
  CompressedSize obj = 0xffffffff ->
  getObjectPropUint64 (w_dev w) objectId OPC_ObjectSize = Err err ->
  GetFileSize obj objectId w =
    ((0, Some (FileObjectError
                 (Errorf ("GetObjectPropValue handle " ++ fmt_d objectId
                          ++ " failed: " ++ Error err)%string))),
     record (EvGetObjectPropValue objectId OPC_ObjectSize) w).
Proof.
  intros Hc Hq. unfold GetFileSize. rewrite Hc, Z.eqb_refl.
  unfold bind, dev_GetObjectPropUint64. rewrite Hq. reflexivity.
Qed.

(** C9: on the root handle both variants of [GetObjectFromObjectId] answer
    without a store call, and their descriptors agree on every field but
    [Size], which is 0 in [helpers.go] and 0xFFFFFFFF in the [mtpx]
    variant. *)
Theorem root_descriptors_differ_in_size_only (parentPath : string)
    (w : World D U) :
  exists fa fb : FileInfo,
    Main.GetObjectFromObjectId ParentObjectId parentPath w = (Ok fa, w) /\
    Mtpx.GetObjectFromObjectId ParentObjectId parentPath w = (Ok fb, w) /\
    Size fa = 0 /\ Size fb = 0xFFFFFFFF /\
    Info fa = Info fb /\ IsDir fa = IsDir fb /\ ModTime fa = ModTime fb /\
    Name fa = Name fb /\ FullPath fa = FullPath fb /\
    ParentPath fa = ParentPath fb /\ Extension fa = Extension fb /\
    ParentId fa = ParentId fb /\ ObjectId fa = ObjectId fb /\
    Size fa <> Size fb.
Proof.
  unfold Main.GetObjectFromObjectId, Mtpx.GetObjectFromObjectId.
  rewrite Z.eqb_refl. unfold ret.
  eexists. eexists. repeat split; simpl; discriminate.
Qed.

(** C5: a non-empty path that normalizes to "/" resolves to the
    synthesized root descriptor (a directory, full path "/", the root
    handle), and the world, call log included, is left as it was: no
    store call is made. *)
Theorem root_shortcut (storageId : uint32) (fullPath : string)
    (w : World D U) :
  fullPath <> EmptyString ->
  fixSlash fullPath = PathSep ->
  exists fi : FileInfo,
    Mtpx.GetObjectFromPath storageId fullPath w = (Ok fi, w) /\
    IsDir fi = true /\ FullPath fi = "/"%string /\
    ObjectId fi = ParentObjectId /\
    Mtpx.GetObjectFromObjectId ParentObjectId EmptyString w = (Ok fi, w).
Proof.
  intros Hne Hroot. unfold Mtpx.GetObjectFromPath.
  apply String.eqb_neq in Hne. rewrite Hne, Hroot, String.eqb_refl.
  unfold Mtpx.GetObjectFromObjectId. rewrite Z.eqb_refl. unfold ret.
  eexists. repeat split.
Qed.

(** C8 (amended): when the compact size is the sentinel and the precise
    query answers [v], the descriptor's [Size] is [v] converted to
    [int64] (that is [v] itself below 2^63), after exactly one property
    query; it is the number 0xFFFFFFFF exactly when the query answers
    that.  When the compact size is not the sentinel, [Size] is the
    compact size and the only store call is the info query.  Both
    variants of [GetObjectFromObjectId] behave so. *)
Theorem size_resolution (objectId : uint32) (parentPath : string)
    (w : World D U) (obj : ObjectInfo) :
  objectId <> ParentObjectId ->
  getObjectInfo (w_dev w) objectId = Ok obj ->
  (forall v : uint64,
      CompressedSize obj = 0xffffffff ->
      getObjectPropUint64 (w_dev w) objectId OPC_ObjectSize = Ok v ->
      exists fa fb w',
        Mtpx.GetObjectFromObjectId objectId parentPath w = (Ok fa, w') /\
        Main.GetObjectFromObjectId objectId parentPath w = (Ok fb, w') /\
        Size fa = int64_of_uint64 v /\ Size fb = int64_of_uint64 v /\
        (0 <= v <= max_int -> Size fa = v) /\
        (0 <= v < 2 ^ 64 -> (Size fa = 0xffffffff <-> v = 0xffffffff)) /\
        w_log w' = w_log w ++ [EvGetObjectInfo objectId;
                               EvGetObjectPropValue objectId OPC_ObjectSize]) /\
  (CompressedSize obj <> 0xffffffff ->
      exists fa fb w',
        Mtpx.GetObjectFromObjectId objectId parentPath w = (Ok fa, w') /\
        Main.GetObjectFromObjectId objectId parentPath w = (Ok fb, w') /\
        Size fa = CompressedSize obj /\ Size fb = CompressedSize obj /\
        w_log w' = w_log w ++ [EvGetObjectInfo objectId]).
Proof.
  intros Hroot Hinfo. split.
  - intros v Hc Hq.
    rewrite (Mtpx_describe_object _ parentPath _ _ Hroot Hinfo).
    rewrite (Main_describe_object _ parentPath _ _ Hroot Hinfo).
    rewrite (GetFileSize_precise obj objectId
               (record (EvGetObjectInfo objectId) w) v Hc Hq). simpl.
    eexists. eexists. eexists. repeat split; simpl.
    + intros Hv. unfold int64_of_uint64. apply wrap64_small.
      unfold max_int in *. lia.
    + unfold int64_of_uint64, wrap64. intros Hs.
      destruct (Z_lt_le_dec v (2 ^ 63)) as [Hlt|Hge].
      * rewrite Z.mod_small in Hs by lia. lia.
      * replace (v + 2 ^ 63) with (v - 2 ^ 63 + 1 * 2 ^ 64) in Hs by lia.
        rewrite Z_mod_plus_full, Z.mod_small in Hs by lia. lia.
    + intros ->. reflexivity.
    + rewrite <- app_assoc. reflexivity.
  - intros Hc.
    rewrite (Mtpx_describe_object _ parentPath _ _ Hroot Hinfo).
    rewrite (Main_describe_object _ parentPath _ _ Hroot Hinfo).
    rewrite (GetFileSize_compact obj objectId
               (record (EvGetObjectInfo objectId) w) Hc). simpl.
    eexists. eexists. eexists. repeat split.
Qed.

(** C2 (amended): when the compact size is the sentinel and the precise
    query fails, [GetFileSize] fails with a [FileObjectError] whose
    message carries the handle, but [GetObjectFromObjectId] drops that
    failure: it returns a descriptor, with [Size] 0. *)
Theorem size_failure_is_dropped (objectId : uint32) (parentPath : string)
    (w : World D U) (obj : ObjectInfo) (err : error) :
  objectId <> ParentObjectId ->
  getObjectInfo (w_dev w) objectId = Ok obj ->
  CompressedSize obj = 0xffffffff ->
  getObjectPropUint64 (w_dev w) objectId OPC_ObjectSize = Err err ->
  fst (GetFileSize obj objectId w) =
    (0, Some (FileObjectError
                (Errorf ("GetObjectPropValue handle " ++ fmt_d objectId
                         ++ " failed: " ++ Error err)%string))) /\
  exists fi w',
    Mtpx.GetObjectFromObjectId objectId parentPath w = (Ok fi, w') /\
    Size fi = 0 /\ Info fi = obj /\ ObjectId fi = objectId.
Proof.
  intros Hroot Hinfo Hc Hq. split.
  - rewrite (GetFileSize_failure obj objectId w err Hc Hq). reflexivity.
  - rewrite (Mtpx_describe_object _ parentPath _ _ Hroot Hinfo).
    rewrite (GetFileSize_failure obj objectId
               (record (EvGetObjectInfo objectId) w) err Hc Hq). simpl.
    eexists. eexists. repeat split.
Qed.

End Describe.

(** *** Examples on the sample store *)

Lemma root_shortcut_witness :
  exists fi : FileInfo,
    Mtpx.GetObjectFromPath 1 "/" (sample_world 0) = (Ok fi, sample_world 0) /\
    IsDir fi = true /\ FullPath fi = "/"%string /\
    ObjectId fi = ParentObjectId /\
    Mtpx.GetObjectFromObjectId ParentObjectId EmptyString (sample_world 0)
      = (Ok fi, sample_world 0).
Proof.
  apply (root_shortcut (D := SampleStore) (U := nat) 1 "/" (sample_world 0)).
  - discriminate.
  - reflexivity.
Defined.

Lemma size_resolution_witness :
  (exists fa fb w',
      Mtpx.GetObjectFromObjectId 20 "/" (sample_world 0) = (Ok fa, w') /\
      Main.GetObjectFromObjectId 20 "/" (sample_world 0) = (Ok fb, w') /\
      Size fa = 6000000000 /\
      w_log w'
      = [EvGetObjectInfo 20; EvGetObjectPropValue 20 OPC_ObjectSize]) /\
  (exists fa fb w',
      Mtpx.GetObjectFromObjectId 11 "/docs" (sample_world 0) = (Ok fa, w') /\
      Main.GetObjectFromObjectId 11 "/docs" (sample_world 0) = (Ok fb, w') /\
      Size fa = 5 /\ w_log w' = [EvGetObjectInfo 11]).
Proof.
  split.
  - destruct (size_resolution (D := SampleStore) (U := nat) 20 "/"
                (sample_world 0) (so_info (sample_big 20 0xFFFFFFFF "movie.mkv"
                                             (Ok 6000000000))))
      as [Hbig _]; [discriminate | reflexivity |].
    destruct (Hbig 6000000000 eq_refl eq_refl)
      as (fa & fb & w' & Ha & Hb & Hsa & _ & _ & _ & Hlog).
    exists fa, fb, w'. repeat split; assumption.
  - destruct (size_resolution (D := SampleStore) (U := nat) 11 "/docs"
                (sample_world 0) (so_info (sample_file 11 10 "a.txt" 5)))
      as [_ Hsmall]; [discriminate | reflexivity |].
    destruct Hsmall as (fa & fb & w' & Ha & Hb & Hsa & _ & Hlog);
      [discriminate|].
    exists fa, fb, w'. repeat split; assumption.
Defined.

(** C8, as stated, fails on the file whose precise size is 4294967295: its
    [Size] is the sentinel number itself. *)
Lemma size_resolution_counterexample :
  getObjectInfo sample_store 22
    = Ok (so_info (sample_big 22 0xFFFFFFFF "edge.bin" (Ok 0xFFFFFFFF))) /\
  CompressedSize (so_info (sample_big 22 0xFFFFFFFF "edge.bin" (Ok 0xFFFFFFFF)))
    = 0xffffffff /\
  getObjectPropUint64 sample_store 22 OPC_ObjectSize = Ok 0xFFFFFFFF /\
  exists fi w',
    Mtpx.GetObjectFromObjectId 22 "/" (sample_world 0) = (Ok fi, w') /\
    Size fi = 0xffffffff.
Proof.
  repeat split. eexists. eexists. split; reflexivity.
Qed.

Lemma size_failure_is_dropped_witness :
  fst (GetFileSize (so_info (sample_big 21 0xFFFFFFFF "broken.bin"
                               (Err (ForeignError "usb stall")))) 21
         (sample_world 0)) =
    (0, Some (FileObjectError
                (Errorf "GetObjectPropValue handle 21 failed: usb stall"))) /\
  exists fi w',
    Mtpx.GetObjectFromObjectId 21 "/" (sample_world 0) = (Ok fi, w') /\
    Size fi = 0 /\
    Info fi = so_info (sample_big 21 0xFFFFFFFF "broken.bin"
                         (Err (ForeignError "usb stall"))) /\
    ObjectId fi = 21.
Proof.
  apply (size_failure_is_dropped (D := SampleStore) (U := nat) 21 "/"
           (sample_world 0) _ (ForeignError "usb stall")).
  - discriminate.
  - reflexivity.
  - reflexivity.
  - reflexivity.
Defined.

(** C2, as stated, fails on the file whose precise-size query fails:
    describing it yields a descriptor, not an error. *)
Lemma size_failure_counterexample :
  getObjectInfo sample_store 21
    = Ok (so_info (sample_big 21 0xFFFFFFFF "broken.bin"
                     (Err (ForeignError "usb stall")))) /\
  getObjectPropUint64 sample_store 21 OPC_ObjectSize
    = Err (ForeignError "usb stall") /\
  ~ (exists e w',
        Mtpx.GetObjectFromObjectId 21 "/" (sample_world 0) = (Err e, w')).
Proof.
  repeat split. intros (e & w' & Habs). vm_compute in Habs. discriminate.
Qed.

(** ** Resolving a path *)

Lemma skipn_nth_error {A : Type} (l : list A) (i : nat) (x : A) :
  nth_error l i = Some x -> skipn i l = x :: skipn (S i) l.
Proof.
  revert l. induction i as [|i IH]; intros [|y l] Hn; simpl in *;
    try discriminate.
  - now inversion Hn.
  - now apply IH.
Qed.

Lemma indexExists_after_skip {A : Type} (l : list A) (i : nat) :
  indexExists l (i + 1 + 1) = true <-> nth_error (skipn 1 l) (S i) <> None.
Proof.
  unfold indexExists. rewrite Nat.ltb_lt, nth_error_Some, length_skipn. lia.
Qed.

Section Resolve.
Context {D U : Type} `{Device D} `{Utils}.

(** What the error of a lookup becomes at the boundary of resolution. *)
Lemma Mtpx_path_loop_step (sid : uint32) (fullPath fp : string)
    (split : list string) (i : nat) (fName : string) (rest : list string)
    (oid : uint32) (rc : int) (fi : option FileInfo) (w w1 : World D U)
    (r : result FileInfo) :
  Mtpx.GetObjectFromParentIdAndFilename sid oid fName w = (r, w1) ->
  Mtpx.path_loop sid fullPath fp split i (fName :: rest) oid rc fi w =
    match r with
    | Err err =>
        (Err match err with
             | FileNotFoundError _ =>
                 InvalidPathError
                   (Errorf ("path not found: " ++ fullPath ++ newline
                            ++ "reason: " ++ Error err)%string)
             | _ => err
             end, w1)
    | Ok _fi =>
        if negb (IsDir _fi) && indexExists split (i + 1 + Mtpx.skipIndex)
        then (Err (InvalidPathError
                     (Errorf ("path not found: " ++ fullPath)%string)), w1)
        else Mtpx.path_loop sid fullPath fp split (S i) rest (ObjectId _fi)
               (int_add rc 1) (Some _fi) w1
    end.
Proof.
  intros E. simpl. unfold bind. rewrite E.
  destruct r as [_fi|err].
  - destruct (negb (IsDir _fi) && indexExists split (i + 1 + Mtpx.skipIndex));
      reflexivity.
  - destruct err; reflexivity.
Qed.

Lemma Main_path_loop_step (sid : uint32) (fullPath : string)
    (split : list string) (i : nat) (fName : string) (rest : list string)
    (parentId : uint32) (isDir : bool) (rc : int) (w w1 : World D U)
    (r : result (uint32 * bool)) :
  Main.GetObjectFromParentIdAndFilename sid parentId fName w = (r, w1) ->
  Main.path_loop sid fullPath split i (fName :: rest) parentId isDir rc w =
    match r with
    | Err err =>
        (Err match err with
             | FileNotFoundError _ =>
                 InvalidPathError
                   (Errorf ("path not found: " ++ fullPath ++ newline
                            ++ "reason: " ++ Error err)%string)
             | _ => err
             end, w1)
    | Ok (objectId, _isDir) =>
        if negb _isDir && indexExists split (i + 1 + Main.skipIndex)
        then (Err (InvalidPathError
                     (Errorf ("path not found: " ++ fullPath)%string)), w1)
        else Main.path_loop sid fullPath split (S i) rest objectId _isDir
               (int_add rc 1) w1
    end.
Proof.
  intros E. simpl. unfold bind. rewrite E.
  destruct r as [[objectId _isDir]|err].
  - destruct (negb _isDir && indexExists split (i + 1 + Main.skipIndex));
      reflexivity.
  - destruct err; reflexivity.
Qed.

(** The loop, started at the root, gets to every segment that resolution
    reaches, on the same store. *)
Lemma Mtpx_path_loop_reaches (sid : uint32) (fullPath fp : string)
    (split : list string) (d : D) (i : nat) (oid : uint32) :
  Mtpx.reaches (U := U) d sid (skipn 1 split) i oid ->
  forall w : World D U, w_dev w = d ->
  exists w' rc fi,
    w_dev w' = d /\
    Mtpx.path_loop sid fullPath fp split 0 (skipn 1 split) ParentObjectId 0
      None w
    = Mtpx.path_loop sid fullPath fp split i (skipn i (skipn 1 split)) oid
        rc fi w'.
Proof.
  induction 1 as [|i oid fName fi Hreach IH Hnth Hy Hdir]; intros w Hw.
  - exists w, 0, None. split; [assumption|reflexivity].
  - destruct (IH w Hw) as (w' & rc & fi0 & Hw' & Heq).
    rewrite Heq, (skipn_nth_error _ _ _ Hnth).
    rewrite <- Hw' in Hy.
    destruct (yields_run _ w' _ (reader_Mtpx_lookup sid oid fName) Hy)
      as (evs & _ & Hrun).
    rewrite (Mtpx_path_loop_step _ _ _ _ _ _ _ _ _ _ _ _ _ Hrun).
    assert (Hguard : negb (IsDir fi)
                     && indexExists split (i + 1 + Mtpx.skipIndex) = false).
    { destruct Hdir as [Hd|Hlast].
      - rewrite Hd. reflexivity.
      - destruct (indexExists split (i + 1 + Mtpx.skipIndex)) eqn:Hidx.
        + apply indexExists_after_skip in Hidx. contradiction.
        + apply andb_false_r. }
    rewrite Hguard.
    eexists. eexists. eexists. split; [|reflexivity]. simpl. assumption.
Qed.

Lemma Main_path_loop_reaches (sid : uint32) (fullPath : string)
    (split : list string) (d : D) (i : nat) (pid : uint32) :
  Main.reaches (U := U) d sid (skipn 1 split) i pid ->
  forall w : World D U, w_dev w = d ->
  exists w' isDir rc,
    w_dev w' = d /\
    Main.path_loop sid fullPath split 0 (skipn 1 split) ParentObjectId true 0 w
    = Main.path_loop sid fullPath split i (skipn i (skipn 1 split)) pid
        isDir rc w'.
Proof.
  induction 1 as [|i pid fName objectId isDir Hreach IH Hnth Hy Hdir];
    intros w Hw.
  - exists w, true, 0. split; [assumption|reflexivity].
  - destruct (IH w Hw) as (w' & isDir0 & rc & Hw' & Heq).
    rewrite Heq, (skipn_nth_error _ _ _ Hnth).
    rewrite <- Hw' in Hy.
    destruct (yields_run _ w' _ (reader_Main_lookup sid pid fName) Hy)
      as (evs & _ & Hrun).
    rewrite (Main_path_loop_step _ _ _ _ _ _ _ _ _ _ _ _ Hrun).
    assert (Hguard : negb isDir
                     && indexExists split (i + 1 + Main.skipIndex) = false).
    { destruct Hdir as [Hd|Hlast].
      - rewrite Hd. reflexivity.
      - destruct (indexExists split (i + 1 + Main.skipIndex)) eqn:Hidx.
        + apply indexExists_after_skip in Hidx. contradiction.
        + apply andb_false_r. }
    rewrite Hguard.
    eexists. eexists. eexists. split; [|reflexivity]. simpl. assumption.
Qed.

(** C4: when resolution reaches a segment whose lookup fails, the caller
    gets [InvalidPath] if the lookup failed with [FileNotFound], and the
    lookup's own error, unchanged, in every other case.  This holds for
    [GetObjectFromPath] of the [mtpx] package and of [helpers.go]. *)
Theorem lookup_error_at_boundary (sid : uint32) (fullPath : string)
    (w : World D U) (i : nat) (fName : string) (e : error) :
  fixSlash fullPath <> PathSep ->
  nth_error (slice_from 1 (strings_Split_PathSep (fixSlash fullPath))) i
    = Some fName ->
  (fullPath <> EmptyString ->
   forall oid : uint32,
     Mtpx.reaches (U := U) (w_dev w) sid
       (slice_from 1 (strings_Split_PathSep (fixSlash fullPath))) i oid ->
     yields (U := U) (Mtpx.GetObjectFromParentIdAndFilename sid oid fName)
       (w_dev w) (Err e) ->
     exists w',
       Mtpx.GetObjectFromPath sid fullPath w =
         (Err match e with
              | FileNotFoundError _ =>
                  InvalidPathError
                    (Errorf ("path not found: " ++ fullPath ++ newline
                             ++ "reason: " ++ Error e)%string)
              | _ => e
              end, w')) /\
  (forall pid : uint32,
     Main.reaches (U := U) (w_dev w) sid
       (slice_from 1 (strings_Split_PathSep (fixSlash fullPath))) i pid ->
     yields (U := U) (Main.GetObjectFromParentIdAndFilename sid pid fName)
       (w_dev w) (Err e) ->
     exists w',
       Main.GetObjectFromPath sid fullPath w =
         (Err match e with
              | FileNotFoundError _ =>
                  InvalidPathError
                    (Errorf ("path not found: " ++ fullPath ++ newline
                             ++ "reason: " ++ Error e)%string)
              | _ => e
              end, w')).
Proof.
  intros Hroot Hnth. apply String.eqb_neq in Hroot.
  unfold slice_from in *. split.
  - intros Hne oid Hreach Hy. apply String.eqb_neq in Hne.
    unfold Mtpx.GetObjectFromPath. rewrite Hne, Hroot.
    unfold slice_from, Mtpx.skipIndex.
    destruct (Mtpx_path_loop_reaches sid fullPath (fixSlash fullPath) _ _ _ _
                Hreach w eq_refl) as (w' & rc & fi & Hw' & Heq).
    rewrite Heq, (skipn_nth_error _ _ _ Hnth).
    rewrite <- Hw' in Hy.
    destruct (yields_run _ w' _ (reader_Mtpx_lookup sid oid fName) Hy)
      as (evs & _ & Hrun).
    rewrite (Mtpx_path_loop_step _ _ _ _ _ _ _ _ _ _ _ _ _ Hrun).
    eexists. reflexivity.
  - intros pid Hreach Hy.
    unfold Main.GetObjectFromPath. rewrite Hroot.
    unfold slice_from, Main.skipIndex.
    destruct (Main_path_loop_reaches sid fullPath _ _ _ _ Hreach w eq_refl)
      as (w' & isDir & rc & Hw' & Heq).
    rewrite Heq, (skipn_nth_error _ _ _ Hnth).
    rewrite <- Hw' in Hy.
    destruct (yields_run _ w' _ (reader_Main_lookup sid pid fName) Hy)
      as (evs & _ & Hrun).
    rewrite (Main_path_loop_step _ _ _ _ _ _ _ _ _ _ _ _ Hrun).
    eexists. reflexivity.
Qed.

(** C3: when resolution reaches a segment that resolves to a
    non-directory while a further segment remains, the result is
    [InvalidPath], whatever the store holds elsewhere.  This holds for
    [GetObjectFromPath] of the [mtpx] package and of [helpers.go]. *)
Theorem mid_path_file_guard (sid : uint32) (fullPath : string)
    (w : World D U) (i : nat) (fName next : string) :
  fixSlash fullPath <> PathSep ->
  nth_error (slice_from 1 (strings_Split_PathSep (fixSlash fullPath))) i
    = Some fName ->
  nth_error (slice_from 1 (strings_Split_PathSep (fixSlash fullPath))) (S i)
    = Some next ->
  (fullPath <> EmptyString ->
   forall (oid : uint32) (fi : FileInfo),
     Mtpx.reaches (U := U) (w_dev w) sid
       (slice_from 1 (strings_Split_PathSep (fixSlash fullPath))) i oid ->
     yields (U := U) (Mtpx.GetObjectFromParentIdAndFilename sid oid fName)
       (w_dev w) (Ok fi) ->
     IsDir fi = false ->
     exists w',
       Mtpx.GetObjectFromPath sid fullPath w =
         (Err (InvalidPathError
                 (Errorf ("path not found: " ++ fullPath)%string)), w')) /\
  (forall pid objectId : uint32,
     Main.reaches (U := U) (w_dev w) sid
       (slice_from 1 (strings_Split_PathSep (fixSlash fullPath))) i pid ->
     yields (U := U) (Main.GetObjectFromParentIdAndFilename sid pid fName)
       (w_dev w) (Ok (objectId, false)) ->
     exists w',
       Main.GetObjectFromPath sid fullPath w =
         (Err (InvalidPathError
                 (Errorf ("path not found: " ++ fullPath)%string)), w')).
Proof.
  intros Hroot Hnth Hnext. apply String.eqb_neq in Hroot.
  unfold slice_from in *.
  assert (Hidx : indexExists (strings_Split_PathSep (fixSlash fullPath))
                   (i + 1 + 1) = true).
  { apply indexExists_after_skip. rewrite Hnext. discriminate. }
  split.
  - intros Hne oid fi Hreach Hy Hfile. apply String.eqb_neq in Hne.
    unfold Mtpx.GetObjectFromPath. rewrite Hne, Hroot.
    unfold slice_from, Mtpx.skipIndex.
    destruct (Mtpx_path_loop_reaches sid fullPath (fixSlash fullPath) _ _ _ _
                Hreach w eq_refl) as (w' & rc & fi0 & Hw' & Heq).
    rewrite Heq, (skipn_nth_error _ _ _ Hnth).
    rewrite <- Hw' in Hy.
    destruct (yields_run _ w' _ (reader_Mtpx_lookup sid oid fName) Hy)
      as (evs & _ & Hrun).
    rewrite (Mtpx_path_loop_step _ _ _ _ _ _ _ _ _ _ _ _ _ Hrun).
    unfold Mtpx.skipIndex. rewrite Hfile, Hidx. simpl.
    eexists. reflexivity.
  - intros pid objectId Hreach Hy.
    unfold Main.GetObjectFromPath. rewrite Hroot.
    unfold slice_from, Main.skipIndex.
    destruct (Main_path_loop_reaches sid fullPath _ _ _ _ Hreach w eq_refl)
      as (w' & isDir & rc & Hw' & Heq).
    rewrite Heq, (skipn_nth_error _ _ _ Hnth).
    rewrite <- Hw' in Hy.
    destruct (yields_run _ w' _ (reader_Main_lookup sid pid fName) Hy)
      as (evs & _ & Hrun).
    rewrite (Main_path_loop_step _ _ _ _ _ _ _ _ _ _ _ _ Hrun).
    unfold Main.skipIndex. rewrite Hidx. simpl.
    eexists. reflexivity.
Qed.

End Resolve.

(** *** Examples on the sample store *)

Lemma sample_reaches_docs :
  Mtpx.reaches (U := nat) sample_store 1 ["docs"; "zzz"; "c.txt"]%string 1
    (ObjectId sample_docs_fi).
Proof.
  apply (Mtpx.reaches_next (U := nat) sample_store 1 _ 0 ParentObjectId "docs"
           sample_docs_fi).
  - apply Mtpx.reaches_start.
  - reflexivity.
  - apply (reader_yields _ (sample_world 0)); [apply reader_Mtpx_lookup|].
    reflexivity.
  - left. reflexivity.
Qed.

Lemma sample_reaches_docs_main :
  Main.reaches (U := nat) sample_store 1 ["docs"; "zzz"; "c.txt"]%string 1 10.
Proof.
  apply (Main.reaches_next (U := nat) sample_store 1 _ 0 ParentObjectId "docs"
           10 true).
  - apply Main.reaches_start.
  - reflexivity.
  - apply (reader_yields _ (sample_world 0)); [apply reader_Main_lookup|].
    reflexivity.
  - left. reflexivity.
Qed.

Lemma lookup_error_at_boundary_witness :
  (exists w',
      Mtpx.GetObjectFromPath 1 "/docs/zzz/c.txt" (sample_world 0) =
        (Err (InvalidPathError
                (Errorf ("path not found: /docs/zzz/c.txt" ++ newline
                         ++ "reason: file not found: zzz")%string)), w')) /\
  (exists w',
      Main.GetObjectFromPath 1 "/docs/zzz/c.txt" (sample_world 0) =
        (Err (InvalidPathError
                (Errorf ("path not found: /docs/zzz/c.txt" ++ newline
                         ++ "reason: file not found: zzz")%string)), w')).
Proof.
  destruct (lookup_error_at_boundary (D := SampleStore) (U := nat) 1
              "/docs/zzz/c.txt" (sample_world 0) 1 "zzz"
              (FileNotFoundError (Errorf "file not found: zzz")))
    as [Hmtpx Hmain]; [discriminate | reflexivity |].
  split.
  - apply (Hmtpx ltac:(discriminate) (ObjectId sample_docs_fi)).
    + exact sample_reaches_docs.
    + apply (reader_yields _ (sample_world 0)); [apply reader_Mtpx_lookup|].
      reflexivity.
  - apply (Hmain 10).
    + exact sample_reaches_docs_main.
    + apply (reader_yields _ (sample_world 0)); [apply reader_Main_lookup|].
      reflexivity.
Defined.

Lemma sample_reaches_docs_x :
  Mtpx.reaches (U := nat) sample_store 1 ["docs"; "a.txt"; "x"]%string 1
    (ObjectId sample_docs_fi).
Proof.
  apply (Mtpx.reaches_next (U := nat) sample_store 1 _ 0 ParentObjectId "docs"
           sample_docs_fi).
  - apply Mtpx.reaches_start.
  - reflexivity.
  - apply (reader_yields _ (sample_world 0)); [apply reader_Mtpx_lookup|].
    reflexivity.
  - left. reflexivity.
Qed.

Lemma sample_reaches_docs_x_main :
  Main.reaches (U := nat) sample_store 1 ["docs"; "a.txt"; "x"]%string 1 10.
Proof.
  apply (Main.reaches_next (U := nat) sample_store 1 _ 0 ParentObjectId "docs"
           10 true).
  - apply Main.reaches_start.
  - reflexivity.
  - apply (reader_yields _ (sample_world 0)); [apply reader_Main_lookup|].
    reflexivity.
  - left. reflexivity.
Qed.

Lemma mid_path_file_guard_witness :
  (exists w',
      Mtpx.GetObjectFromPath 1 "/docs/a.txt/x" (sample_world 0) =
        (Err (InvalidPathError (Errorf "path not found: /docs/a.txt/x")),
         w')) /\
  (exists w',
      Main.GetObjectFromPath 1 "/docs/a.txt/x" (sample_world 0) =
        (Err (InvalidPathError (Errorf "path not found: /docs/a.txt/x")), w')).
Proof.
  destruct (mid_path_file_guard (D := SampleStore) (U := nat) 1
              "/docs/a.txt/x" (sample_world 0) 1 "a.txt" "x")
    as [Hmtpx Hmain]; [discriminate | reflexivity | reflexivity |].
  split.
  - apply (Hmtpx ltac:(discriminate) (ObjectId sample_docs_fi) sample_a_txt_fi).
    + exact sample_reaches_docs_x.
    + apply (reader_yields _ (sample_world 0)); [apply reader_Mtpx_lookup|].
      reflexivity.
    + reflexivity.
  - apply (Hmain 10 11).
    + exact sample_reaches_docs_x_main.
    + apply (reader_yields _ (sample_world 0)); [apply reader_Main_lookup|].
      reflexivity.
Defined.

(** ** Creating a file over an existing name *)

Lemma reads_are_not_mutations (evs : list Event) :
  forallb is_read evs = true -> existsb is_mutation evs = false.
Proof.
  induction evs as [|ev evs IH]; simpl; [reflexivity|].
  intros Hr. apply andb_prop in Hr. destruct Hr as [Hev Hrest].
  rewrite (IH Hrest). destruct ev; simpl in *; try discriminate; reflexivity.
Qed.

Lemma reads_are_not_visits (l evs : list Event) :
  forallb is_read evs = true -> visits (l ++ evs) = visits l.
Proof.
  intros Hr. unfold visits. rewrite filter_app, length_app.
  assert (Hnil : filter is_visit evs = []).
  { induction evs as [|ev evs IH]; simpl; [reflexivity|].
    simpl in Hr. apply andb_prop in Hr. destruct Hr as [Hev Hrest].
    destruct ev; simpl in *; try discriminate; now apply IH. }
  rewrite Hnil. simpl. lia.
Qed.

Section MakeFile.
Context {D U : Type} `{Device D} `{Utils}.

(** When the lookup of the name finds a descriptor, [handleMakeFile] with
    [overwriteExisting = false] returns its handle; the store is unchanged
    and the calls recorded are reads only; called again, it returns the
    same handle. *)
Lemma makeFile_keeps_looked_up (sid : uint32) (obj : ObjectInfo)
    (size : int64) (fileBuf : list Byte.byte) (progressCb : SizeProgressCb)
    (w w1 : World D U) (fi : FileInfo) :
  Mtpx.GetObjectFromParentIdAndFilename sid (ParentObject obj) (Filename obj) w
    = (Ok fi, w1) ->
  Mtpx.handleMakeFile sid obj size fileBuf false progressCb w
    = ((ObjectId fi, None), w1) /\
  w_dev w1 = w_dev w /\
  (exists evs, w_log w1 = w_log w ++ evs /\ existsb is_mutation evs = false) /\
  (forall size' fileBuf' progressCb',
      exists w2 evs,
        Mtpx.handleMakeFile sid obj size' fileBuf' false progressCb' w1
          = ((ObjectId fi, None), w2) /\
        w_dev w2 = w_dev w /\
        w_log w2 = w_log w1 ++ evs /\ existsb is_mutation evs = false).
Proof.
  intros Hlookup.
  destruct (reader_run _ w w1 (Ok fi)
              (reader_Mtpx_lookup sid (ParentObject obj) (Filename obj))
              Hlookup) as (evs & Hreads & Hw1 & Hagain).
  repeat split.
  - unfold Mtpx.handleMakeFile, bind. rewrite Hlookup. reflexivity.
  - rewrite Hw1. reflexivity.
  - exists evs. rewrite Hw1. simpl. split; [reflexivity|].
    now apply reads_are_not_mutations.
  - intros size' fileBuf' progressCb'.
    assert (Hd : w_dev w1 = w_dev w) by (rewrite Hw1; reflexivity).
    exists (mkWorld (w_dev w1) (w_usr w1) (w_log w1 ++ evs)), evs.
    repeat split.
    + unfold Mtpx.handleMakeFile, bind. rewrite (Hagain w1 Hd). reflexivity.
    + simpl. assumption.
    + now apply reads_are_not_mutations.
Qed.

End MakeFile.

(** ** The remote walk *)

Section Walk.
Context {D U : Type} `{Device D} `{Utils}.

Lemma reader_Mtpx_path_loop (sid : uint32) (fullPath fp : string)
    (split segments : list string) :
  forall (i : nat) (oid : uint32) (rc : int) (fi : option FileInfo),
    reader (D := D) (U := U)
      (Mtpx.path_loop sid fullPath fp split i segments oid rc fi).
Proof.
  induction segments as [|fName rest IH]; intros i oid rc fi; simpl.
  - destruct fi as [fi'|]; [destruct (rc <? 1)|]; apply reader_ret.
  - apply reader_bind; [apply reader_Mtpx_lookup|].
    intros [_fi|err].
    + destruct (negb (IsDir _fi) && indexExists split (i + 1 + Mtpx.skipIndex));
        [apply reader_ret|apply IH].
    + destruct err; apply reader_ret.
Qed.

Lemma reader_Mtpx_resolve (sid : uint32) (fullPath : string) :
  reader (D := D) (U := U) (Mtpx.GetObjectFromPath sid fullPath).
Proof.
  unfold Mtpx.GetObjectFromPath.
  destruct (String.eqb fullPath EmptyString); [apply reader_ret|].
  destruct (String.eqb (fixSlash fullPath) PathSep).
  - apply reader_Mtpx_describe.
  - apply reader_Mtpx_path_loop.
Qed.

Lemma reader_Mtpx_anchor (sid objectId : uint32) (fullPath : string) :
  reader (D := D) (U := U)
    (Mtpx.GetObjectFromObjectIdOrPath sid objectId fullPath).
Proof.
  unfold Mtpx.GetObjectFromObjectIdOrPath.
  destruct ((objectId =? 0) && String.eqb fullPath EmptyString);
    [apply reader_ret|].
  destruct (objectId =? 0).
  - apply reader_bind; [apply reader_Mtpx_resolve|].
    intros [fp|err]; apply reader_ret.
  - apply reader_bind; [apply reader_Mtpx_describe|].
    intros [fo|err]; apply reader_ret.
Qed.

(** One turn of the loop of [proccessWalk]. *)
Lemma walk_loop_cons (walk : uint32 -> string -> P D U (int * option error))
    (fullPath : string) (recursive skip : bool) (cb : WalkCb U)
    (objId : uint32) (rest : list uint32) (totalFiles : int) (w : World D U) :
  Mtpx.walk_loop walk fullPath recursive skip cb (objId :: rest) totalFiles w =
    match Mtpx.GetObjectFromObjectId objId fullPath w with
    | (Err _, w1) =>
        Mtpx.walk_loop walk fullPath recursive skip cb rest totalFiles w1
    | (Ok fi, w1) =>
        if skip && isDisallowedFiles (Name fi) then
          Mtpx.walk_loop walk fullPath recursive skip cb rest totalFiles w1
        else
          match call_cb cb objId fi w1 with
          | (Some e, w2) => Some ((int_add totalFiles 1, Some e), w2)
          | (None, w2) =>
              if negb recursive || negb (IsDir fi) then
                Mtpx.walk_loop walk fullPath recursive skip cb rest
                  (int_add totalFiles 1) w2
              else
                match walk objId (FullPath fi) w2 with
                | None => None
                | Some ((_, Some e), w3) =>
                    Some ((int_add totalFiles 1, Some e), w3)
                | Some ((n, None), w3) =>
                    Mtpx.walk_loop walk fullPath recursive skip cb rest
                      (int_add (int_add totalFiles 1) n) w3
                end
          end
    end.
Proof.
  simpl. unfold pbind, lift.
  destruct (Mtpx.GetObjectFromObjectId objId fullPath w) as [[fi|e] w1];
    [|reflexivity].
  destruct (skip && isDisallowedFiles (Name fi)); [reflexivity|].
  destruct (call_cb cb objId fi w1) as [[e|] w2]; [reflexivity|].
  destruct recursive; simpl; [|reflexivity].
  destruct (IsDir fi); simpl; [|reflexivity].
  destruct (walk objId (FullPath fi) w2) as [[[n [e|]] w3]|]; reflexivity.
Qed.

Lemma proccessWalk_unfold (fuel : nat) (sid objectId : uint32)
    (fullPath : string) (recursive skip : bool) (cb : WalkCb U)
    (w w0 : World D U) (fi : FileInfo) (handles : list uint32) :
  Mtpx.GetObjectFromObjectIdOrPath sid objectId fullPath w = (Ok fi, w0) ->
  getObjectHandles (w_dev w0) sid GOH_ALL_ASSOCS (ObjectId fi) = Ok handles ->
  Mtpx.proccessWalk (S fuel) sid objectId fullPath recursive skip cb w =
    Mtpx.walk_loop
      (fun objId path =>
         Mtpx.proccessWalk fuel sid objId path recursive skip cb)
      fullPath recursive skip cb handles 0
      (record (EvGetObjectHandles sid GOH_ALL_ASSOCS (ObjectId fi)) w0).
Proof.
  intros Hanchor Hhandles. simpl. unfold pbind, lift.
  rewrite Hanchor. unfold dev_GetObjectHandles. rewrite Hhandles.
  reflexivity.
Qed.

(** A frame that runs over a prefix of the handles leaves the loop at the
    rest of them, with the count it has accumulated. *)
Lemma frame_run_loop (walk : uint32 -> string -> P D U (int * option error))
    (fullPath : string) (recursive skip : bool) (cb : WalkCb U)
    (pre : list uint32) (w w1 : World D U) (k : nat) (s : Z) :
  Mtpx.frame_run walk fullPath recursive skip cb pre w k s w1 ->
  forall (acc : Z) (rest : list uint32),
    Mtpx.walk_loop walk fullPath recursive skip cb (pre ++ rest) (wrap64 acc) w
    = Mtpx.walk_loop walk fullPath recursive skip cb rest
        (wrap64 (acc + Z.of_nat k + s)) w1.
Proof.
  induction 1 as [w
                 |objId pre w e w1 k s w' Hd Hrun IH
                 |objId pre w fi w1 k s w' Hd Hex Hrun IH
                 |objId pre w fi w1 w2 k s w' Hd Hex Hcb Hflat Hrun IH
                 |objId pre w fi w1 w2 n w3 k s w' Hd Hex Hcb Hrec Hdir Hsub
                    Hrun IH];
    intros acc rest.
  - simpl app. f_equal. f_equal. lia.
  - simpl app. rewrite walk_loop_cons, Hd. apply IH.
  - simpl app. rewrite walk_loop_cons, Hd, Hex. apply IH.
  - simpl app. rewrite walk_loop_cons, Hd, Hex, Hcb, Hflat.
    rewrite int_add_wrap, IH. f_equal. f_equal. lia.
  - assert (Hdeep : negb recursive || negb (IsDir fi) = false)
      by (rewrite Hrec, Hdir; reflexivity).
    simpl app. rewrite walk_loop_cons, Hd, Hex, Hcb, Hdeep, Hsub.
    rewrite !int_add_wrap, IH. f_equal. f_equal. lia.
Qed.

Lemma frame_run_flat (walk : uint32 -> string -> P D U (int * option error))
    (fullPath : string) (skip : bool) (cb : WalkCb U)
    (pre : list uint32) (w w1 : World D U) (k : nat) (s : Z) :
  Mtpx.frame_run walk fullPath false skip cb pre w k s w1 -> s = 0.
Proof.
  remember false as recursive eqn:Hrec.
  induction 1; subst; auto; discriminate.
Qed.

(** C1 (amended): let the top frame of a walk run over the handles before
    [h], visiting [k] of them and completing recursive walks whose counts
    sum to [s], and let the visitor then fail on [h], the [k+1]-th entry
    the frame visits.  The walk returns that failure with the count
    [k + 1 + s] (in [int] arithmetic): the failing entry is counted.  In a
    walk that does not recurse [s] is 0 and the count is [k + 1]. *)
Theorem walk_abort_count (fuel : nat) (sid objectId : uint32)
    (fullPath : string) (recursive skip : bool) (cb : WalkCb U)
    (w w0 w1 w2 w3 : World D U) (fi hfi : FileInfo)
    (pre post : list uint32) (h : uint32) (k : nat) (s : Z) (e : error) :
  Mtpx.GetObjectFromObjectIdOrPath sid objectId fullPath w = (Ok fi, w0) ->
  getObjectHandles (w_dev w0) sid GOH_ALL_ASSOCS (ObjectId fi)
    = Ok (pre ++ h :: post) ->
  Mtpx.frame_run
    (fun objId path => Mtpx.proccessWalk fuel sid objId path recursive skip cb)
    fullPath recursive skip cb pre
    (record (EvGetObjectHandles sid GOH_ALL_ASSOCS (ObjectId fi)) w0)
    k s w1 ->
  Mtpx.GetObjectFromObjectId h fullPath w1 = (Ok hfi, w2) ->
  skip && isDisallowedFiles (Name hfi) = false ->
  call_cb cb h hfi w2 = (Some e, w3) ->
  Mtpx.proccessWalk (S fuel) sid objectId fullPath recursive skip cb w
    = Some ((wrap64 (Z.of_nat (S k) + s), Some e), w3) /\
  (- 2 ^ 63 <= Z.of_nat (S k) + s <= max_int ->
     Mtpx.proccessWalk (S fuel) sid objectId fullPath recursive skip cb w
     = Some ((Z.of_nat (S k) + s, Some e), w3)) /\
  (recursive = false -> s = 0).
Proof.
  intros Hanchor Hhandles Hrun Hd Hex Hcb.
  assert (Hmain :
    Mtpx.proccessWalk (S fuel) sid objectId fullPath recursive skip cb w
    = Some ((wrap64 (Z.of_nat (S k) + s), Some e), w3)).
  { rewrite (proccessWalk_unfold _ _ _ _ _ _ _ _ _ _ _ Hanchor Hhandles).
    change 0 with (wrap64 0) at 1.
    rewrite (frame_run_loop _ _ _ _ _ _ _ _ _ _ Hrun).
    rewrite walk_loop_cons, Hd, Hex, Hcb, int_add_wrap.
    f_equal. f_equal. f_equal. f_equal. lia. }
  repeat split.
  - exact Hmain.
  - intros Hrange. rewrite Hmain, wrap64_small by assumption. reflexivity.
  - intros ->. eapply frame_run_flat. eassumption.
Qed.

(** When the failure arises inside the recursive walk of [h], the frame
    returns its own count, [h] included; what the walk of [h] had counted
    is not added. *)
Lemma walk_abort_in_nested_walk (fuel : nat) (sid objectId : uint32)
    (fullPath : string) (skip : bool) (cb : WalkCb U)
    (w w0 w1 w2 w3 w4 : World D U) (fi hfi : FileInfo)
    (pre post : list uint32) (h : uint32) (k : nat) (s n : Z) (e : error) :
  Mtpx.GetObjectFromObjectIdOrPath sid objectId fullPath w = (Ok fi, w0) ->
  getObjectHandles (w_dev w0) sid GOH_ALL_ASSOCS (ObjectId fi)
    = Ok (pre ++ h :: post) ->
  Mtpx.frame_run
    (fun objId path => Mtpx.proccessWalk fuel sid objId path true skip cb)
    fullPath true skip cb pre
    (record (EvGetObjectHandles sid GOH_ALL_ASSOCS (ObjectId fi)) w0)
    k s w1 ->
  Mtpx.GetObjectFromObjectId h fullPath w1 = (Ok hfi, w2) ->
  skip && isDisallowedFiles (Name hfi) = false ->
  call_cb cb h hfi w2 = (None, w3) ->
  IsDir hfi = true ->
  Mtpx.proccessWalk fuel sid h (FullPath hfi) true skip cb w3
    = Some ((n, Some e), w4) ->
  Mtpx.proccessWalk (S fuel) sid objectId fullPath true skip cb w
    = Some ((wrap64 (Z.of_nat (S k) + s), Some e), w4).
Proof.
  intros Hanchor Hhandles Hrun Hd Hex Hcb Hdir Hsub.
  rewrite (proccessWalk_unfold _ _ _ _ _ _ _ _ _ _ _ Hanchor Hhandles).
  change 0 with (wrap64 0) at 1.
  rewrite (frame_run_loop _ _ _ _ _ _ _ _ _ _ Hrun).
  rewrite walk_loop_cons, Hd, Hex, Hcb, Hdir. cbn [negb orb].
  rewrite Hsub, int_add_wrap.
  f_equal. f_equal. f_equal. f_equal. lia.
Qed.

End Walk.

Lemma walk_abort_count_witness :
  exists w3 : World SampleStore nat,
    Mtpx.proccessWalk 2 1 10 "/docs" true true (sample_fail_at 4)
      (sample_world 0)
      = Some ((wrap64 (Z.of_nat 3 + (1 + 0)), Some (ForeignError "stop")),
              w3) /\
    (- 2 ^ 63 <= Z.of_nat 3 + (1 + 0) <= max_int ->
       Mtpx.proccessWalk 2 1 10 "/docs" true true (sample_fail_at 4)
         (sample_world 0)
       = Some ((Z.of_nat 3 + (1 + 0), Some (ForeignError "stop")), w3)) /\
    (true = false -> 1 + 0 = 0).
Proof.
  eexists.
  eapply (walk_abort_count (D := SampleStore) (U := nat) 1 1 10 "/docs" true
            true (sample_fail_at 4) (sample_world 0) _ _ _ _ _ _
            [11; 12; 13] [] 14 2 (1 + 0) (ForeignError "stop")).
  - reflexivity.
  - reflexivity.
  - eapply Mtpx.frame_visit;
      [reflexivity | reflexivity | reflexivity | reflexivity |].
    eapply Mtpx.frame_excluded; [reflexivity | reflexivity |].
    eapply Mtpx.frame_descend;
      [reflexivity | reflexivity | reflexivity | reflexivity | reflexivity
      | lazy; reflexivity |].
    apply Mtpx.frame_done.
  - reflexivity.
  - reflexivity.
  - reflexivity.
Defined.

(** C1, as stated, fails on a walk of /docs that does not recurse and whose
    visitor fails on the first entry it is handed (k = 1, no recursive walk
    completed): the count returned is 1, not k - 1 = 0. *)
Lemma walk_abort_counterexample :
  exists w' : World SampleStore nat,
    Mtpx.proccessWalk 1 1 10 "/docs" false true (sample_fail_at 1)
      (sample_world 0) = Some ((1, Some (ForeignError "stop")), w') /\
    visits (w_log w') = 1%nat /\
    w_usr w' = 1%nat /\
    1 <> (1 - 1) + 0.
Proof.
  eexists. split; [lazy; reflexivity|]. split; [reflexivity|].
  split; [reflexivity|]. lia.
Qed.


Section WalkCount.
Context {D U : Type} `{Device D} `{Utils}.




(** A walk that does not recurse returns whatever budget it is given. *)
Lemma flat_loop_returns (walk : uint32 -> string -> P D U (int * option error))
    (fullPath : string) (skip : bool) (cb : WalkCb U) (handles : list uint32) :
  forall (acc : Z) (w : World D U),
    Mtpx.walk_loop walk fullPath false skip cb handles acc w <> None.
Proof.
  induction handles as [|h rest IH]; intros acc w.
  - discriminate.
  - rewrite walk_loop_cons.
    destruct (Mtpx.GetObjectFromObjectId h fullPath w) as [[hfi|e] w1];
      [|apply IH].
    destruct (skip && isDisallowedFiles (Name hfi)); [apply IH|].
    destruct (call_cb cb h hfi w1) as [[e|] w2]; [discriminate|].
    cbn [negb orb]. apply IH.
Qed.

Lemma flat_walk_returns (fuel : nat) (sid objectId : uint32)
    (fullPath : string) (skip : bool) (cb : WalkCb U) (w : World D U) :
  Mtpx.proccessWalk (S fuel) sid objectId fullPath false skip cb w <> None.
Proof.
  simpl. unfold pbind, lift.
  destruct (Mtpx.GetObjectFromObjectIdOrPath sid objectId fullPath w)
    as [[fi|e] w0]; [|discriminate].
  unfold dev_GetObjectHandles.
  destruct (getObjectHandles (w_dev w0) sid GOH_ALL_ASSOCS (ObjectId fi))
    as [handles|e]; [|discriminate].
  apply flat_loop_returns.
Qed.

(** A larger budget does not change what a walk returns. *)
Lemma walk_loop_mono
    (walk1 walk2 : uint32 -> string -> P D U (int * option error))
    (fullPath : string) (recursive skip : bool) (cb : WalkCb U) :
  (forall o p w r, walk1 o p w = Some r -> walk2 o p w = Some r) ->
  forall (handles : list uint32) (acc : Z) (w : World D U) r,
    Mtpx.walk_loop walk1 fullPath recursive skip cb handles acc w = Some r ->
    Mtpx.walk_loop walk2 fullPath recursive skip cb handles acc w = Some r.
Proof.
  intros Hw handles.
  induction handles as [|h rest IH]; intros acc w r; [auto|].
  rewrite !walk_loop_cons.
  destruct (Mtpx.GetObjectFromObjectId h fullPath w) as [[hfi|e] w1];
    [|apply IH].
  destruct (skip && isDisallowedFiles (Name hfi)); [apply IH|].
  destruct (call_cb cb h hfi w1) as [[e|] w2]; [auto|].
  destruct (negb recursive || negb (IsDir hfi)); [apply IH|].
  destruct (walk1 h (FullPath hfi) w2) as [[[n [e|]] w3]|] eqn:E1;
    try discriminate.
  - rewrite (Hw _ _ _ _ E1). auto.
  - rewrite (Hw _ _ _ _ E1). apply IH.
Qed.

Lemma proccessWalk_fuel_mono (fuel : nat) :
  forall (sid objectId : uint32) (fullPath : string) (recursive skip : bool)
         (cb : WalkCb U) (w : World D U) r,
    Mtpx.proccessWalk fuel sid objectId fullPath recursive skip cb w = Some r ->
    Mtpx.proccessWalk (S fuel) sid objectId fullPath recursive skip cb w
    = Some r.
Proof.
  induction fuel as [|fuel IH];
    intros sid objectId fullPath recursive skip cb w r; [discriminate|].
  intros Hrun.
  change (Mtpx.proccessWalk (S (S fuel)) sid objectId fullPath recursive skip
            cb w)
    with ((r0 <--
             lift (Mtpx.GetObjectFromObjectIdOrPath sid objectId fullPath) ;;
           match r0 with
           | Err err => pret (0, Some err)
           | Ok fi =>
               hs <--
                 lift (dev_GetObjectHandles sid GOH_ALL_ASSOCS (ObjectId fi)) ;;
               match hs with
               | Err err => pret (0, Some (ListDirectoryError err))
               | Ok handles =>
                   Mtpx.walk_loop
                     (fun objId path =>
                        Mtpx.proccessWalk (S fuel) sid objId path recursive
                          skip cb)
                     fullPath recursive skip cb handles 0
               end
           end) w).
  simpl in Hrun. unfold pbind, lift in *.
  destruct (Mtpx.GetObjectFromObjectIdOrPath sid objectId fullPath w)
    as [[fi|e] w0]; [|exact Hrun].
  destruct (dev_GetObjectHandles sid GOH_ALL_ASSOCS (ObjectId fi) w0)
    as [[handles|e] w1]; [|exact Hrun].
  eapply walk_loop_mono; [|exact Hrun].
  intros o p w' r' Hsub. apply IH. exact Hsub.
Qed.

End WalkCount.


(** ** The local walk *)

Section LocalFacts.
Context {U : Type} `{Utils}.

(** [walk] on a directory: the function is called on it, then the loop
    runs over its children. *)
Lemma filepath_walk_dir {S : Type} (walkFn : WalkArg -> S -> option error * S)
    (info : os_FileInfo) (readErr : option error) (children : list LocalNode)
    (st : S) :
  os_IsDir info = true ->
  filepath_walk walkFn (LNode info readErr children) st =
    let (err1, st1) := walkFn (Entry info readErr) st in
    if is_some readErr || is_some err1 then (err1, st1)
    else walk_names walkFn children st1.
Proof.
  intros Hdir. simpl. rewrite Hdir. cbn [negb].
  destruct (walkFn (Entry info readErr) st) as [err1 st1].
  destruct (is_some readErr || is_some err1); [reflexivity|].
  revert st1. induction children as [|child rest IH]; intros st1;
    [reflexivity|].
  destruct child as [cinfo cerr cchildren|cerr].
  - cbn [walk_names].
    destruct (filepath_walk walkFn (LNode cinfo cerr cchildren) st1)
      as [[e'|] st'].
    + destruct (negb (os_IsDir cinfo) || negb (is_SkipDir e'));
        [reflexivity|apply IH].
    + apply IH.
  - cbn [walk_names].
    destruct (walkFn (NoInfo cerr) st1) as [[e'|] st'].
    + destruct (negb (is_SkipDir e')); [reflexivity|apply IH].
    + apply IH.
Qed.

(** The function handed to [Walk] leaves an excluded entry alone, and
    [walk] on an excluded directory is the loop over its children. *)
Lemma excluded_dir_walk_is_children_walk (cb : LocalWalkCb U)
    (info : os_FileInfo) (children : list LocalNode) (st : LocalTotals U) :
  isDisallowedFiles (os_Name info) = true ->
  walkLocalFiles_fn cb (Entry info None) st = (None, st) /\
  (os_IsDir info = true ->
     filepath_walk (walkLocalFiles_fn cb) (LNode info None children) st
     = walk_names (walkLocalFiles_fn cb) children st) /\
  (os_IsDir info = true ->
     forall (child : os_FileInfo) (u' : U),
       os_IsDir child = false ->
       isSymlinkLocal child = false ->
       isDisallowedFiles (os_Name child) = false ->
       cb child None (l_usr st) = (None, u') ->
       filepath_walk (walkLocalFiles_fn cb)
         (LNode info None [LNode child None []]) st
       = (None,
          mkLocalTotals (int_add (totalFiles st) 1) (totalDirectories st)
            (int_add (totalSize st) (os_Size child)) u'
            (l_visited st ++ [child]))).
Proof.
  intros Hex.
  assert (Hself : walkLocalFiles_fn cb (Entry info None) st = (None, st)).
  { unfold walkLocalFiles_fn. rewrite Hex.
    destruct (isSymlinkLocal info); reflexivity. }
  assert (Hinto : forall l, os_IsDir info = true ->
            filepath_walk (walkLocalFiles_fn cb) (LNode info None l) st
            = walk_names (walkLocalFiles_fn cb) l st).
  { intros l Hdir. rewrite (filepath_walk_dir _ _ _ _ _ Hdir), Hself.
    reflexivity. }
  split; [exact Hself|]. split; [apply Hinto|].
  intros Hdir child u' Hfile Hlink Hallowed Hcb.
  rewrite (Hinto _ Hdir). cbn [walk_names filepath_walk].
  rewrite Hfile. cbn [negb].
  unfold walkLocalFiles_fn at 1. rewrite Hlink, Hallowed, Hcb, Hfile.
  reflexivity.
Qed.

End LocalFacts.

(** The whole local walk of the sample tree: ".Trashes" and the symbolic
    link are neither visited nor counted, "keep.txt" inside ".Trashes" is. *)
Example sample_local_walk :
  walkLocalFiles sample_local_fs ["/home/u/photos"]%string sample_local_count
    0%nat
  = (None,
     mkLocalTotals 2 1 42 3%nat [sample_photos; sample_keep; sample_a_jpg]).
Proof. vm_compute. reflexivity. Qed.

(** * Further facts *)

(** ** Name lookup *)

Lemma skipn_cons_inv {A : Type} (l : list A) (i : nat) (x : A) (r : list A) :
  skipn i l = x :: r -> nth_error l i = Some x /\ skipn (S i) l = r.
Proof.
  revert l. induction i as [|i IH]; intros [|y l] Hs; simpl in *;
    try discriminate.
  - inversion Hs. auto.
  - apply IH in Hs. destruct l; exact Hs.
Qed.

Section Lookup.
Context {D U : Type} `{Device D} `{Utils}.

Lemma Mtpx_describe_ObjectId (h : uint32) (p : string) (w w' : World D U)
    (fi : FileInfo) :
  Mtpx.GetObjectFromObjectId h p w = (Ok fi, w') -> ObjectId fi = h.
Proof.
  unfold Mtpx.GetObjectFromObjectId.
  destruct (h =? ParentObjectId) eqn:Hroot.
  - unfold ret. intros Hr. inversion Hr. simpl.
    symmetry. now apply Z.eqb_eq.
  - unfold bind, dev_GetObjectInfo.
    destruct (getObjectInfo (w_dev w) h) as [obj|e]; [|discriminate].
    destruct (GetFileSize obj h (record (EvGetObjectInfo h) w)) as [sz w1].
    unfold ret. intros Hr. inversion Hr. reflexivity.
Qed.

(** One turn of the loop of [GetObjectFromParentIdAndFilename]. *)
Lemma Mtpx_lookup_loop_cons (filename : string) (h : uint32)
    (rest : list uint32) (w : World D U) :
  Mtpx.lookup_loop filename (h :: rest) w =
    match getObjectPropString (w_dev w) h OPC_ObjectFileName with
    | Err err =>
        (Err (FileObjectError err),
         record (EvGetObjectPropValue h OPC_ObjectFileName) w)
    | Ok val =>
        if negb (String.eqb val filename) then
          Mtpx.lookup_loop filename rest
            (record (EvGetObjectPropValue h OPC_ObjectFileName) w)
        else
          match Mtpx.GetObjectFromObjectId h EmptyString
                  (record (EvGetObjectPropValue h OPC_ObjectFileName) w) with
          | (Err err, w1) => (Err (FileObjectError err), w1)
          | (Ok fi, w1) =>
              if String.eqb (Name fi) filename then (Ok fi, w1)
              else Mtpx.lookup_loop filename rest w1
          end
    end.
Proof.
  simpl. unfold bind, dev_GetObjectPropString.
  destruct (getObjectPropString (w_dev w) h OPC_ObjectFileName) as [val|err];
    [|reflexivity].
  destruct (negb (String.eqb val filename)); [reflexivity|].
  destruct (Mtpx.GetObjectFromObjectId h EmptyString
              (record (EvGetObjectPropValue h OPC_ObjectFileName) w))
    as [[fi|err] w1]; [|reflexivity].
  destruct (String.eqb (Name fi) filename); reflexivity.
Qed.

Lemma Mtpx_lookup_unfold (sid parent : uint32) (filename : string)
    (w : World D U) :
  Mtpx.GetObjectFromParentIdAndFilename sid parent filename w =
    match getObjectHandles (w_dev w) sid GOH_ALL_ASSOCS parent with
    | Err err =>
        (Err (FileObjectError err),
         record (EvGetObjectHandles sid GOH_ALL_ASSOCS parent) w)
    | Ok handles =>
        Mtpx.lookup_loop filename handles
          (record (EvGetObjectHandles sid GOH_ALL_ASSOCS parent) w)
    end.
Proof.
  unfold Mtpx.GetObjectFromParentIdAndFilename, bind, dev_GetObjectHandles.
  destruct (getObjectHandles (w_dev w) sid GOH_ALL_ASSOCS parent);
    reflexivity.
Qed.

Lemma Mtpx_lookup_loop_sound (filename : string) (handles : list uint32) :
  forall (w w' : World D U) (fi : FileInfo),
    Mtpx.lookup_loop filename handles w = (Ok fi, w') ->
    Name fi = filename /\ In (ObjectId fi) handles.
Proof.
  induction handles as [|h rest IH]; intros w w' fi Hrun.
  - discriminate.
  - rewrite Mtpx_lookup_loop_cons in Hrun.
    destruct (getObjectPropString (w_dev w) h OPC_ObjectFileName)
      as [val|err]; [|discriminate].
    destruct (negb (String.eqb val filename)).
    + apply IH in Hrun. destruct Hrun. split; [assumption|now right].
    + destruct (Mtpx.GetObjectFromObjectId h EmptyString
                  (record (EvGetObjectPropValue h OPC_ObjectFileName) w))
        as [[fi0|err] w1] eqn:Hd; [|discriminate].
      destruct (String.eqb (Name fi0) filename) eqn:Hname.
      * inversion Hrun; subst. split; [now apply String.eqb_eq|].
        left. symmetry. eapply Mtpx_describe_ObjectId. exact Hd.
      * apply IH in Hrun. destruct Hrun. split; [assumption|now right].
Qed.

Lemma Mtpx_lookup_name (sid parent : uint32) (filename : string)
    (w w' : World D U) (fi : FileInfo) :
  Mtpx.GetObjectFromParentIdAndFilename sid parent filename w = (Ok fi, w') ->
  Name fi = filename.
Proof.
  rewrite Mtpx_lookup_unfold.
  destruct (getObjectHandles (w_dev w) sid GOH_ALL_ASSOCS parent)
    as [handles|err]; [|discriminate].
  intros Hrun. now apply Mtpx_lookup_loop_sound in Hrun.
Qed.

(** X1: a successful name lookup returns a descriptor whose [Name] is the
    name asked for and whose handle is one of the children the store lists
    under the parent. *)
Theorem lookup_result_is_a_named_child (sid parent : uint32)
    (filename : string) (w w' : World D U) (fi : FileInfo) :
  Mtpx.GetObjectFromParentIdAndFilename sid parent filename w = (Ok fi, w') ->
  Name fi = filename /\
  exists handles,
    getObjectHandles (w_dev w) sid GOH_ALL_ASSOCS parent = Ok handles /\
    In (ObjectId fi) handles.
Proof.
  rewrite Mtpx_lookup_unfold.
  destruct (getObjectHandles (w_dev w) sid GOH_ALL_ASSOCS parent)
    as [handles|err]; [|discriminate].
  intros Hrun. apply Mtpx_lookup_loop_sound in Hrun. destruct Hrun.
  split; [assumption|]. exists handles. auto.
Qed.

Lemma Mtpx_lookup_loop_miss (filename : string) (handles : list uint32) :
  forall (d : D) (u : U) (l : list Event),
    Forall (fun h => exists val,
                getObjectPropString d h OPC_ObjectFileName = Ok val /\
                val <> filename) handles ->
    Mtpx.lookup_loop filename handles (mkWorld d u l) =
      (Err (FileNotFoundError (Errorf ("file not found: " ++ filename)%string)),
       mkWorld d u
         (l ++ map (fun h => EvGetObjectPropValue h OPC_ObjectFileName)
                   handles)).
Proof.
  induction handles as [|h rest IH]; intros d u l Hall.
  - simpl. unfold ret. now rewrite app_nil_r.
  - inversion Hall as [|h0 rest0 (val & Hval & Hne) Hrest]; subst.
    rewrite Mtpx_lookup_loop_cons. simpl w_dev. rewrite Hval.
    apply String.eqb_neq in Hne. rewrite Hne. cbn [negb].
    unfold record. simpl. rewrite (IH d u _ Hrest), <- app_assoc.
    reflexivity.
Qed.

(** X2: when no child carries the name, the lookup fails with
    [FileNotFound] after one listing and one file-name property query per
    child, in order; it never fetches the info record of a child whose name
    does not match. *)
Theorem lookup_miss_queries_names_only (sid parent : uint32)
    (filename : string) (w : World D U) (handles : list uint32) :
  getObjectHandles (w_dev w) sid GOH_ALL_ASSOCS parent = Ok handles ->
  Forall (fun h => exists val,
              getObjectPropString (w_dev w) h OPC_ObjectFileName = Ok val /\
              val <> filename) handles ->
  Mtpx.GetObjectFromParentIdAndFilename sid parent filename w =
    (Err (FileNotFoundError (Errorf ("file not found: " ++ filename)%string)),
     mkWorld (w_dev w) (w_usr w)
       (w_log w
        ++ EvGetObjectHandles sid GOH_ALL_ASSOCS parent
           :: map (fun h => EvGetObjectPropValue h OPC_ObjectFileName)
                  handles)).
Proof.
  intros Hlist Hall. rewrite Mtpx_lookup_unfold, Hlist.
  unfold record. rewrite (Mtpx_lookup_loop_miss _ _ _ _ _ Hall).
  rewrite <- app_assoc. reflexivity.
Qed.

Lemma Mtpx_lookup_loop_errors (filename : string) (handles : list uint32) :
  forall (w w' : World D U) (e : error),
    Mtpx.lookup_loop filename handles w = (Err e, w') ->
    (exists e', e = FileObjectError e') \/
    e = FileNotFoundError (Errorf ("file not found: " ++ filename)%string).
Proof.
  induction handles as [|h rest IH]; intros w w' e Hrun.
  - inversion Hrun. now right.
  - rewrite Mtpx_lookup_loop_cons in Hrun.
    destruct (getObjectPropString (w_dev w) h OPC_ObjectFileName)
      as [val|err].
    + destruct (negb (String.eqb val filename)); [eapply IH; eassumption|].
      destruct (Mtpx.GetObjectFromObjectId h EmptyString
                  (record (EvGetObjectPropValue h OPC_ObjectFileName) w))
        as [[fi0|err] w1].
      * destruct (String.eqb (Name fi0) filename);
          [discriminate|eapply IH; eassumption].
      * inversion Hrun. left. eauto.
    + inversion Hrun. left. eauto.
Qed.

Lemma Mtpx_lookup_errors (sid parent : uint32) (filename : string)
    (w w' : World D U) (e : error) :
  Mtpx.GetObjectFromParentIdAndFilename sid parent filename w = (Err e, w') ->
  (exists e', e = FileObjectError e') \/
  e = FileNotFoundError (Errorf ("file not found: " ++ filename)%string).
Proof.
  rewrite Mtpx_lookup_unfold.
  destruct (getObjectHandles (w_dev w) sid GOH_ALL_ASSOCS parent)
    as [handles|err]; [apply Mtpx_lookup_loop_errors|].
  intros Hrun. inversion Hrun. left. eauto.
Qed.

(** X3: a name lookup fails in two ways only: with a [FileObjectError]
    (the listing, a name query or the description failed) or with the
    [FileNotFoundError] that names the file. *)
Theorem lookup_error_kinds (sid parent : uint32) (filename : string)
    (w w' : World D U) (e : error) :
  Mtpx.GetObjectFromParentIdAndFilename sid parent filename w = (Err e, w') ->
  (exists e', e = FileObjectError e') \/
  e = FileNotFoundError (Errorf ("file not found: " ++ filename)%string).
Proof.
  rewrite Mtpx_lookup_unfold.
  destruct (getObjectHandles (w_dev w) sid GOH_ALL_ASSOCS parent)
    as [handles|err].
  - apply Mtpx_lookup_loop_errors.
  - intros Hrun. inversion Hrun. left. eauto.
Qed.

End Lookup.

Lemma lookup_result_is_a_named_child_witness :
  Name sample_a_txt_fi = "a.txt"%string /\
  exists handles,
    getObjectHandles sample_store 1 GOH_ALL_ASSOCS 10 = Ok handles /\
    In (ObjectId sample_a_txt_fi) handles.
Proof.
  eapply (lookup_result_is_a_named_child (D := SampleStore) (U := nat) 1 10
            "a.txt" (sample_world 0)).
  reflexivity.
Defined.

Lemma lookup_miss_queries_names_only_witness :
  Mtpx.GetObjectFromParentIdAndFilename 1 10 "zzz" (sample_world 0) =
    (Err (FileNotFoundError (Errorf "file not found: zzz")),
     mkWorld sample_store 0%nat
       [EvGetObjectHandles 1 GOH_ALL_ASSOCS 10;
        EvGetObjectPropValue 11 OPC_ObjectFileName;
        EvGetObjectPropValue 12 OPC_ObjectFileName;
        EvGetObjectPropValue 13 OPC_ObjectFileName;
        EvGetObjectPropValue 14 OPC_ObjectFileName]).
Proof.
  apply (lookup_miss_queries_names_only (D := SampleStore) (U := nat) 1 10
           "zzz" (sample_world 0) [11; 12; 13; 14]).
  - reflexivity.
  - repeat constructor; eexists; (split; [reflexivity|discriminate]).
Defined.

Lemma lookup_error_kinds_witness :
  (exists e', FileNotFoundError (Errorf "file not found: zzz")
              = FileObjectError e') \/
  FileNotFoundError (Errorf "file not found: zzz")
  = FileNotFoundError (Errorf ("file not found: " ++ "zzz")%string).
Proof.
  eapply (lookup_error_kinds (D := SampleStore) (U := nat) 1 10 "zzz"
            (sample_world 0)).
  reflexivity.
Defined.

(** ** Path resolution: what comes back *)

Section ResolveMore.
Context {D U : Type} `{Device D} `{Utils}.

Lemma Main_lookup_loop_cons (filename : string) (h : uint32)
    (rest : list uint32) (w : World D U) :
  Main.lookup_loop filename (h :: rest) w =
    match getObjectInfo (w_dev w) h with
    | Err err => (Err (FileObjectError err), record (EvGetObjectInfo h) w)
    | Ok obj =>
        if String.eqb (Filename obj) filename
        then (Ok (h, isObjectADir obj), record (EvGetObjectInfo h) w)
        else Main.lookup_loop filename rest (record (EvGetObjectInfo h) w)
    end.
Proof.
  simpl. unfold bind, dev_GetObjectInfo.
  destruct (getObjectInfo (w_dev w) h) as [obj|err]; [|reflexivity].
  destruct (String.eqb (Filename obj) filename); reflexivity.
Qed.

Lemma Main_lookup_unfold (sid parent : uint32) (filename : string)
    (w : World D U) :
  Main.GetObjectFromParentIdAndFilename sid parent filename w =
    match getObjectHandles (w_dev w) sid GOH_ALL_ASSOCS parent with
    | Err err =>
        (Err (FileObjectError err),
         record (EvGetObjectHandles sid GOH_ALL_ASSOCS parent) w)
    | Ok handles =>
        Main.lookup_loop filename handles
          (record (EvGetObjectHandles sid GOH_ALL_ASSOCS parent) w)
    end.
Proof.
  unfold Main.GetObjectFromParentIdAndFilename, bind, dev_GetObjectHandles.
  destruct (getObjectHandles (w_dev w) sid GOH_ALL_ASSOCS parent);
    reflexivity.
Qed.

Lemma Main_lookup_error_kinds (sid parent : uint32) (filename : string)
    (w w' : World D U) (e : error) :
  Main.GetObjectFromParentIdAndFilename sid parent filename w = (Err e, w') ->
  (exists e', e = FileObjectError e') \/
  e = FileNotFoundError (Errorf ("file not found: " ++ filename)%string).
Proof.
  rewrite Main_lookup_unfold.
  destruct (getObjectHandles (w_dev w) sid GOH_ALL_ASSOCS parent)
    as [handles|err]; [|intros Hrun; inversion Hrun; left; eauto].
  generalize (record (EvGetObjectHandles sid GOH_ALL_ASSOCS parent) w).
  induction handles as [|h rest IH]; intros w0 Hrun.
  - inversion Hrun. now right.
  - rewrite Main_lookup_loop_cons in Hrun.
    destruct (getObjectInfo (w_dev w0) h) as [obj|err].
    + destruct (String.eqb (Filename obj) filename);
        [discriminate|eapply IH; eassumption].
    + inversion Hrun. left. eauto.
Qed.

Lemma Mtpx_path_loop_errors (sid : uint32) (fullPath fp : string)
    (split segments : list string) :
  forall (i : nat) (oid : uint32) (rc : int) (fio : option FileInfo)
         (w w' : World D U) (e : error),
    Mtpx.path_loop sid fullPath fp split i segments oid rc fio w
      = (Err e, w') ->
    (exists e', e = InvalidPathError e') \/ (exists e', e = FileObjectError e').
Proof.
  induction segments as [|fName rest IH]; intros i oid rc fio w w' e Hrun.
  - simpl in Hrun. unfold ret in Hrun.
    destruct fio as [f|]; [destruct (rc <? 1)|]; inversion Hrun; left; eauto.
  - destruct (Mtpx.GetObjectFromParentIdAndFilename sid oid fName w)
      as [r w1] eqn:Hl.
    rewrite (Mtpx_path_loop_step _ _ _ _ _ _ _ _ _ _ _ _ _ Hl) in Hrun.
    destruct r as [_fi|err].
    + destruct (negb (IsDir _fi) && indexExists split (i + 1 + Mtpx.skipIndex)).
      * inversion Hrun. left. eauto.
      * eapply IH. eassumption.
    + destruct (Mtpx_lookup_errors _ _ _ _ _ _ Hl) as [(e' & ->)| ->];
        inversion Hrun; [right|left]; eauto.
Qed.

Lemma Main_path_loop_errors (sid : uint32) (fullPath : string)
    (split segments : list string) :
  forall (i : nat) (pid : uint32) (isDir : bool) (rc : int)
         (w w' : World D U) (e : error),
    Main.path_loop sid fullPath split i segments pid isDir rc w = (Err e, w') ->
    (exists e', e = InvalidPathError e') \/ (exists e', e = FileObjectError e').
Proof.
  induction segments as [|fName rest IH]; intros i pid isDir rc w w' e Hrun.
  - simpl in Hrun. unfold ret in Hrun.
    destruct (rc <? 1); inversion Hrun; left; eauto.
  - destruct (Main.GetObjectFromParentIdAndFilename sid pid fName w)
      as [r w1] eqn:Hl.
    rewrite (Main_path_loop_step _ _ _ _ _ _ _ _ _ _ _ _ Hl) in Hrun.
    destruct r as [[objectId _isDir]|err].
    + destruct (negb _isDir && indexExists split (i + 1 + Main.skipIndex)).
      * inversion Hrun. left. eauto.
      * eapply IH. eassumption.
    + destruct (Main_lookup_error_kinds _ _ _ _ _ _ Hl) as [(e' & ->)| ->];
        inversion Hrun; [right|left]; eauto.
Qed.

(** X4: whatever the path and the store, the only errors
    [GetObjectFromPath] returns are [InvalidPathError] and
    [FileObjectError]; in particular a caller never sees a
    [FileNotFoundError].  This holds for both variants. *)
Theorem resolve_error_kinds (sid : uint32) (fullPath : string)
    (w : World D U) :
  (forall w' e,
      Mtpx.GetObjectFromPath sid fullPath w = (Err e, w') ->
      (exists e', e = InvalidPathError e') \/
      (exists e', e = FileObjectError e')) /\
  (forall w' e,
      Main.GetObjectFromPath sid fullPath w = (Err e, w') ->
      (exists e', e = InvalidPathError e') \/
      (exists e', e = FileObjectError e')).
Proof.
  split; intros w' e.
  - unfold Mtpx.GetObjectFromPath.
    destruct (String.eqb fullPath EmptyString).
    + unfold ret. intros Hrun. inversion Hrun. left. eauto.
    + destruct (String.eqb (fixSlash fullPath) PathSep).
      * unfold Mtpx.GetObjectFromObjectId. rewrite Z.eqb_refl.
        discriminate.
      * apply Mtpx_path_loop_errors.
  - unfold Main.GetObjectFromPath.
    destruct (String.eqb (fixSlash fullPath) PathSep).
    + discriminate.
    + apply Main_path_loop_errors.
Qed.

(** The loop of [GetObjectFromPath], when it ends well: every remaining
    segment was found, and the descriptor is that of the last one. *)
Lemma Mtpx_path_loop_success (sid : uint32) (fullPath fp : string)
    (split : list string) (d : D) (rest : list string) :
  forall (i : nat) (oid : uint32) (rc : int) (fio : option FileInfo)
         (w w' : World D U) (fi : FileInfo),
    skipn i (skipn 1 split) = rest ->
    Mtpx.reaches (U := U) d sid (skipn 1 split) i oid ->
    w_dev w = d ->
    (forall f, fio = Some f ->
       nth_error (skipn 1 split) (i - 1) = Some (Name f) /\ ObjectId f = oid) ->
    Mtpx.path_loop sid fullPath fp split i rest oid rc fio w = (Ok fi, w') ->
    Mtpx.reaches (U := U) d sid (skipn 1 split) (i + length rest) (ObjectId fi)
    /\ nth_error (skipn 1 split) (i + length rest - 1) = Some (Name fi)
    /\ FullPath fi = fp.
Proof.
  induction rest as [|fName rest IH];
    intros i oid rc fio w w' fi Hskip Hreach Hd Hfio Hrun.
  - simpl in Hrun. unfold ret in Hrun.
    destruct fio as [f|]; [|discriminate].
    destruct (rc <? 1); [discriminate|].
    inversion Hrun; subst fi. simpl.
    destruct (Hfio f eq_refl) as [Hname Hid].
    rewrite Nat.add_0_r, Hid. auto.
  - destruct (skipn_cons_inv _ _ _ _ Hskip) as [Hnth Hskip'].
    destruct (Mtpx.GetObjectFromParentIdAndFilename sid oid fName w)
      as [r w1] eqn:Hl.
    rewrite (Mtpx_path_loop_step _ _ _ _ _ _ _ _ _ _ _ _ _ Hl) in Hrun.
    destruct r as [_fi|err]; [|discriminate].
    destruct (negb (IsDir _fi) && indexExists split (i + 1 + Mtpx.skipIndex))
      eqn:Hguard; [discriminate|].
    pose proof (Mtpx_lookup_name _ _ _ _ _ _ Hl) as Hname.
    destruct (reader_run _ _ _ _ (reader_Mtpx_lookup sid oid fName) Hl)
      as (evs & _ & Hw1 & _).
    assert (Hy : yields (U := U)
                   (Mtpx.GetObjectFromParentIdAndFilename sid oid fName) d
                   (Ok _fi)).
    { rewrite <- Hd. apply reader_yields; [apply reader_Mtpx_lookup|].
      rewrite Hl. reflexivity. }
    assert (Hnext : IsDir _fi = true \/
                    nth_error (skipn 1 split) (S i) = None).
    { destruct (IsDir _fi); [now left|right]. simpl in Hguard.
      destruct (nth_error (skipn 1 split) (S i)) eqn:Hn; [|reflexivity].
      assert (Hidx : indexExists split (i + 1 + 1) = true)
        by (apply indexExists_after_skip; rewrite Hn; discriminate).
      unfold Mtpx.skipIndex in Hguard. rewrite Hidx in Hguard.
      discriminate. }
    pose proof (Mtpx.reaches_next d sid _ i oid fName _fi Hreach Hnth Hy Hnext)
      as Hreach'.
    replace (i + length (fName :: rest))%nat with (S i + length rest)%nat
      by (simpl; lia).
    eapply (IH (S i) (ObjectId _fi) _ (Some _fi) w1 w' fi);
      [exact Hskip' | exact Hreach' | rewrite Hw1; exact Hd | | exact Hrun].
    intros f Hf. inversion Hf; subst f.
    replace (S i - 1)%nat with i by lia. rewrite Hname. auto.
Qed.

(** X5: a successful [GetObjectFromPath] returns a descriptor whose
    [FullPath] is the normalized input path, whatever path the lookups
    themselves had computed. *)
Theorem resolve_sets_full_path (sid : uint32) (fullPath : string)
    (w w' : World D U) (fi : FileInfo) :
  Mtpx.GetObjectFromPath sid fullPath w = (Ok fi, w') ->
  FullPath fi = fixSlash fullPath.
Proof.
  unfold Mtpx.GetObjectFromPath.
  destruct (String.eqb fullPath EmptyString); [discriminate|].
  destruct (String.eqb (fixSlash fullPath) PathSep) eqn:Hroot.
  - unfold Mtpx.GetObjectFromObjectId. rewrite Z.eqb_refl. unfold ret.
    intros Hrun. inversion Hrun. simpl.
    apply String.eqb_eq in Hroot. rewrite Hroot. reflexivity.
  - intros Hrun. unfold slice_from, Mtpx.skipIndex in Hrun.
    eapply (Mtpx_path_loop_success sid fullPath (fixSlash fullPath) _
              (w_dev w) _ 0 ParentObjectId 0 None w w' fi);
      [reflexivity | apply Mtpx.reaches_start | reflexivity
      | discriminate | exact Hrun].
Qed.

(** X6: when [GetObjectFromPath] succeeds on a path other than the root,
    every segment of the path was found in turn (each under the handle of
    the one before, all but the last being directories), and the
    descriptor returned carries the name of the last segment. *)
Theorem resolve_finds_every_segment (sid : uint32) (fullPath : string)
    (w w' : World D U) (fi : FileInfo) :
  fixSlash fullPath <> PathSep ->
  Mtpx.GetObjectFromPath sid fullPath w = (Ok fi, w') ->
  let segments := slice_from 1 (strings_Split_PathSep (fixSlash fullPath)) in
  Mtpx.reaches (U := U) (w_dev w) sid segments (length segments) (ObjectId fi)
  /\ nth_error segments (length segments - 1) = Some (Name fi).
Proof.
  intros Hroot. apply String.eqb_neq in Hroot.
  unfold Mtpx.GetObjectFromPath.
  destruct (String.eqb fullPath EmptyString); [discriminate|].
  rewrite Hroot. intros Hrun. unfold slice_from, Mtpx.skipIndex in *.
  destruct (Mtpx_path_loop_success sid fullPath (fixSlash fullPath) _
              (w_dev w) _ 0 ParentObjectId 0 None w w' fi eq_refl
              (Mtpx.reaches_start _ _ _) eq_refl
              ltac:(discriminate) Hrun) as (Hreach & Hname & _).
  simpl in Hreach, Hname. auto.
Qed.

End ResolveMore.

Lemma resolve_error_kinds_witness :
  ((exists e', InvalidPathError (Errorf "path not found: /docs/a.txt/x")
               = InvalidPathError e') \/
   (exists e', InvalidPathError (Errorf "path not found: /docs/a.txt/x")
               = FileObjectError e')) /\
  ((exists e', InvalidPathError (Errorf "path not found: /docs/a.txt/x")
               = InvalidPathError e') \/
   (exists e', InvalidPathError (Errorf "path not found: /docs/a.txt/x")
               = FileObjectError e')).
Proof.
  destruct (resolve_error_kinds (D := SampleStore) (U := nat) 1
              "/docs/a.txt/x" (sample_world 0)) as [Hmtpx Hmain].
  split.
  - eapply Hmtpx. lazy. reflexivity.
  - eapply Hmain. lazy. reflexivity.
Defined.

Lemma resolve_sets_full_path_witness :
  exists fi : FileInfo,
    fst (Mtpx.GetObjectFromPath 1 "docs\sub\c.txt" (sample_world 0)) = Ok fi /\
    FullPath fi = "/docs/sub/c.txt"%string.
Proof.
  pose proof (resolve_sets_full_path (D := SampleStore) (U := nat) 1
                "docs\sub\c.txt" (sample_world 0)) as Hthm.
  destruct (Mtpx.GetObjectFromPath 1 "docs\sub\c.txt" (sample_world 0))
    as [[fi|e] w'] eqn:E.
  - exists fi. split; [reflexivity|].
    rewrite (Hthm w' fi eq_refl). reflexivity.
  - vm_compute in E. discriminate.
Defined.

Lemma resolve_finds_every_segment_witness :
  exists fi : FileInfo,
    fst (Mtpx.GetObjectFromPath 1 "/docs/sub/c.txt" (sample_world 0)) = Ok fi /\
    Mtpx.reaches (U := nat) sample_store 1 ["docs"; "sub"; "c.txt"]%string 3
      (ObjectId fi) /\
    Name fi = "c.txt"%string.
Proof.
  pose proof (resolve_finds_every_segment (D := SampleStore) (U := nat) 1
                "/docs/sub/c.txt" (sample_world 0)) as Hthm.
  destruct (Mtpx.GetObjectFromPath 1 "/docs/sub/c.txt" (sample_world 0))
    as [[fi|e] w'] eqn:E.
  - exists fi. split; [reflexivity|].
    destruct (Hthm w' fi ltac:(discriminate) eq_refl) as [Hreach Hname].
    split; [exact Hreach|]. vm_compute in Hname. now inversion Hname.
  - vm_compute in E. discriminate.
Defined.

(** ** The two variants of path resolution *)

Section Variants.
Context {D U : Type} `{Device D} `{Utils}.

Lemma lookup_loops_agree (d : D) (filename : string) (handles : list uint32) :
  Forall (fun h =>
            h <> ParentObjectId /\
            exists obj, getObjectInfo d h = Ok obj /\
                        getObjectPropString d h OPC_ObjectFileName
                        = Ok (Filename obj))
         handles ->
  forall w1 w2 : World D U,
    w_dev w1 = d -> w_dev w2 = d ->
    fst (Main.lookup_loop filename handles w2)
    = handle_and_kind (fst (Mtpx.lookup_loop filename handles w1)).
Proof.
  induction 1 as [|h rest (Hroot & obj & Hinfo & Hname) Hrest IH];
    intros w1 w2 Hd1 Hd2.
  - reflexivity.
  - rewrite Main_lookup_loop_cons, Mtpx_lookup_loop_cons, Hd1, Hd2.
    rewrite Hinfo, Hname.
    destruct (String.eqb (Filename obj) filename) eqn:Heq; cbn [negb].
    + rewrite (Mtpx_describe_object h EmptyString _ obj Hroot)
        by (simpl; rewrite Hd1; exact Hinfo).
      cbn [Name]. rewrite Heq. reflexivity.
    + apply IH; assumption.
Qed.

Lemma lookups_agree (d : D) (sid parent : uint32) (filename : string)
    (w1 w2 : World D U) :
  names_agree d -> w_dev w1 = d -> w_dev w2 = d ->
  fst (Main.GetObjectFromParentIdAndFilename sid parent filename w2)
  = handle_and_kind
      (fst (Mtpx.GetObjectFromParentIdAndFilename sid parent filename w1)).
Proof.
  intros Hagree Hd1 Hd2.
  rewrite Main_lookup_unfold, Mtpx_lookup_unfold, Hd1, Hd2.
  destruct (getObjectHandles d sid GOH_ALL_ASSOCS parent) as [handles|err]
    eqn:Hl; [|reflexivity].
  apply (lookup_loops_agree d); [exact (Hagree _ _ _ Hl)| |]; assumption.
Qed.

Lemma path_loops_agree (d : D) (sid : uint32) (fullPath fp : string)
    (split segments : list string) :
  names_agree d ->
  forall (i : nat) (oid : uint32) (rc : int) (fio : option FileInfo)
         (isDir : bool) (w1 w2 : World D U),
    w_dev w1 = d -> w_dev w2 = d ->
    (fio = None -> rc = 0) ->
    (forall f, fio = Some f -> ObjectId f = oid /\ IsDir f = isDir) ->
    fst (Main.path_loop sid fullPath split i segments oid isDir rc w2)
    = handle_and_kind
        (fst (Mtpx.path_loop sid fullPath fp split i segments oid rc fio w1)).
Proof.
  intros Hagree.
  induction segments as [|fName rest IH];
    intros i oid rc fio isDir w1 w2 Hd1 Hd2 Hnone Hsome.
  - simpl. unfold ret. destruct fio as [f|].
    + destruct (rc <? 1); [reflexivity|]. simpl.
      destruct (Hsome f eq_refl) as [-> ->]. reflexivity.
    + rewrite (Hnone eq_refl). reflexivity.
  - destruct (Mtpx.GetObjectFromParentIdAndFilename sid oid fName w1)
      as [r1 w1'] eqn:Hl1.
    destruct (Main.GetObjectFromParentIdAndFilename sid oid fName w2)
      as [r2 w2'] eqn:Hl2.
    rewrite (Mtpx_path_loop_step _ _ _ _ _ _ _ _ _ _ _ _ _ Hl1).
    rewrite (Main_path_loop_step _ _ _ _ _ _ _ _ _ _ _ _ Hl2).
    pose proof (lookups_agree d sid oid fName w1 w2 Hagree Hd1 Hd2) as Hr.
    rewrite Hl1, Hl2 in Hr. simpl in Hr. subst r2.
    destruct (reader_run _ _ _ _ (reader_Mtpx_lookup sid oid fName) Hl1)
      as (evs1 & _ & Hw1 & _).
    destruct (reader_run _ _ _ _ (reader_Main_lookup sid oid fName) Hl2)
      as (evs2 & _ & Hw2 & _).
    destruct r1 as [_fi|err]; simpl.
    + unfold Mtpx.skipIndex, Main.skipIndex.
      destruct (negb (IsDir _fi) && indexExists split (i + 1 + 1));
        [reflexivity|].
      apply IH.
      * rewrite Hw1. exact Hd1.
      * rewrite Hw2. exact Hd2.
      * discriminate.
      * intros f Hf. inversion Hf. auto.
    + destruct err; reflexivity.
Qed.

(** X7: on a store whose file-name property agrees with its info records,
    the two variants of [GetObjectFromPath] resolve every non-empty path
    alike: the [helpers.go] variant returns the handle and the kind of the
    descriptor the [mtpx] variant returns, or the very same error. *)
Theorem resolve_variants_agree (sid : uint32) (fullPath : string)
    (w : World D U) :
  names_agree (w_dev w) ->
  fullPath <> EmptyString ->
  fst (Main.GetObjectFromPath sid fullPath w)
  = handle_and_kind (fst (Mtpx.GetObjectFromPath sid fullPath w)).
Proof.
  intros Hagree Hne. apply String.eqb_neq in Hne.
  unfold Main.GetObjectFromPath, Mtpx.GetObjectFromPath. rewrite Hne.
  destruct (String.eqb (fixSlash fullPath) PathSep).
  - unfold Mtpx.GetObjectFromObjectId. rewrite Z.eqb_refl. reflexivity.
  - unfold Mtpx.skipIndex, Main.skipIndex.
    apply (path_loops_agree (w_dev w)); auto. discriminate.
Qed.

End Variants.

Lemma sample_stores_agree (d : SampleStore) :
  Forall (fun o =>
            so_handle o <> ParentObjectId /\
            exists obj,
              getObjectInfo d (so_handle o) = Ok obj /\
              getObjectPropString d (so_handle o) OPC_ObjectFileName
              = Ok (Filename obj)) d ->
  names_agree d.
Proof.
  intros Hall sid parent handles Hl.
  change (getObjectHandles d sid GOH_ALL_ASSOCS parent)
    with (Ok (map so_handle
                (filter (fun o => (ParentObject (so_info o) =? parent)
                                  && (StorageID (so_info o) =? sid)) d)))
    in Hl.
  injection Hl as <-.
  apply Forall_forall. intros h Hin.
  apply in_map_iff in Hin. destruct Hin as (o & <- & Hin).
  apply filter_In in Hin. destruct Hin as [Hin _].
  rewrite Forall_forall in Hall. exact (Hall o Hin).
Qed.

Lemma sample_names_agree : names_agree (D := SampleStore) sample_store.
Proof.
  apply sample_stores_agree.
  repeat constructor; try discriminate; (eexists; split; reflexivity).
Qed.

Lemma resolve_variants_agree_witness :
  fst (Main.GetObjectFromPath 1 "/docs/sub/c.txt" (sample_world 0))
  = handle_and_kind
      (fst (Mtpx.GetObjectFromPath 1 "/docs/sub/c.txt" (sample_world 0))) /\
  fst (Main.GetObjectFromPath 1 "/docs/sub/c.txt" (sample_world 0))
  = Ok (15, false).
Proof.
  split; [|reflexivity].
  apply (resolve_variants_agree (D := SampleStore) (U := nat) 1
           "/docs/sub/c.txt" (sample_world 0)).
  - exact sample_names_agree.
  - discriminate.
Defined.

(** ** The remote walk: what it leaves alone and what it counts *)


Lemma no_mutation_app (l1 l2 : list Event) :
  no_mutation l1 -> no_mutation l2 -> no_mutation (l1 ++ l2).
Proof.
  unfold no_mutation. intros H1 H2. rewrite existsb_app, H1, H2. reflexivity.
Qed.

Section WalkMore.
Context {D U : Type} `{Device D} `{Utils}.

Lemma observes_refl (w : World D U) : observes w w.
Proof.
  split; [reflexivity|]. exists []. rewrite app_nil_r. split; reflexivity.
Qed.

Lemma observes_trans (w1 w2 w3 : World D U) :
  observes w1 w2 -> observes w2 w3 -> observes w1 w3.
Proof.
  intros [Hd1 (e1 & Hl1 & Hm1)] [Hd2 (e2 & Hl2 & Hm2)]. split.
  - congruence.
  - exists (e1 ++ e2). rewrite Hl2, Hl1, app_assoc. split; [reflexivity|].
    now apply no_mutation_app.
Qed.

Lemma reader_observes {A : Type} (m : M D U A) (w w' : World D U) (a : A) :
  reader m -> m w = (a, w') -> observes w w'.
Proof.
  intros Hm Hrun. destruct (reader_run m w w' a Hm Hrun) as (evs & Hr & -> & _).
  split; [reflexivity|]. exists evs. split; [reflexivity|].
  now apply reads_are_not_mutations.
Qed.

Lemma call_cb_observes (cb : WalkCb U) (h : uint32) (fi : FileInfo)
    (w w' : World D U) (r : option error) :
  call_cb cb h fi w = (r, w') -> observes w w'.
Proof.
  unfold call_cb. destruct (cb h fi None (w_usr w)) as [r0 u'].
  intros Hrun. inversion Hrun. split; [reflexivity|].
  exists [EvVisit h]. split; reflexivity.
Qed.

Lemma record_read_observes (ev : Event) (w : World D U) :
  is_read ev = true -> observes w (record ev w).
Proof.
  intros Hr. split; [reflexivity|]. exists [ev]. split; [reflexivity|].
  apply reads_are_not_mutations. simpl. now rewrite Hr.
Qed.

Lemma walk_loop_observes
    (walk : uint32 -> string -> P D U (int * option error))
    (fullPath : string) (recursive skip : bool) (cb : WalkCb U) :
  (forall o p w r w', walk o p w = Some (r, w') -> observes w w') ->
  forall (handles : list uint32) (acc : Z) (w w' : World D U) r,
    Mtpx.walk_loop walk fullPath recursive skip cb handles acc w
      = Some (r, w') ->
    observes w w'.
Proof.
  intros Hwalk handles.
  induction handles as [|h rest IH]; intros acc w w' r Hrun.
  - inversion Hrun. apply observes_refl.
  - rewrite walk_loop_cons in Hrun.
    destruct (Mtpx.GetObjectFromObjectId h fullPath w) as [rd w1] eqn:Hd.
    pose proof (reader_observes _ _ _ _ (reader_Mtpx_describe h fullPath) Hd)
      as Ho1.
    destruct rd as [hfi|e];
      [|eapply observes_trans; [exact Ho1|eapply IH; exact Hrun]].
    destruct (skip && isDisallowedFiles (Name hfi));
      [eapply observes_trans; [exact Ho1|eapply IH; exact Hrun]|].
    destruct (call_cb cb h hfi w1) as [rc w2] eqn:Hcb.
    pose proof (call_cb_observes _ _ _ _ _ _ Hcb) as Ho2.
    pose proof (observes_trans _ _ _ Ho1 Ho2) as Ho12.
    destruct rc as [e|]; [inversion Hrun; subst; exact Ho12|].
    destruct (negb recursive || negb (IsDir hfi));
      [eapply observes_trans; [exact Ho12|eapply IH; exact Hrun]|].
    destruct (walk h (FullPath hfi) w2) as [[[n oe] w3]|] eqn:Hsub;
      [|discriminate].
    pose proof (observes_trans _ _ _ Ho12 (Hwalk _ _ _ _ _ Hsub)) as Ho3.
    destruct oe as [e|]; [inversion Hrun; subst; exact Ho3|].
    eapply observes_trans; [exact Ho3|eapply IH; exact Hrun].
Qed.

(** X8: a walk only observes the store: whatever it returns, the store is
    the one it started from and the calls it has recorded are reads and
    visits, never a creation or a deletion. *)
Theorem walk_only_observes (fuel : nat) :
  forall (sid objectId : uint32) (fullPath : string) (recursive skip : bool)
         (cb : WalkCb U) (w w' : World D U) (r : int * option error),
    Mtpx.proccessWalk fuel sid objectId fullPath recursive skip cb w
      = Some (r, w') ->
    observes w w'.
Proof.
  induction fuel as [|fuel IH];
    intros sid objectId fullPath recursive skip cb w w' r Hrun;
    [discriminate|].
  simpl in Hrun. unfold pbind, lift in Hrun.
  destruct (Mtpx.GetObjectFromObjectIdOrPath sid objectId fullPath w)
    as [ra w0] eqn:Ha.
  pose proof (reader_observes _ _ _ _
                (reader_Mtpx_anchor sid objectId fullPath) Ha) as Ho0.
  destruct ra as [fi|e]; [|inversion Hrun; subst; exact Ho0].
  destruct (dev_GetObjectHandles sid GOH_ALL_ASSOCS (ObjectId fi) w0)
    as [rh w1] eqn:Hh.
  pose proof (reader_observes _ _ _ _
                (reader_GetObjectHandles sid GOH_ALL_ASSOCS (ObjectId fi)) Hh)
    as Ho1.
  pose proof (observes_trans _ _ _ Ho0 Ho1) as Ho01.
  destruct rh as [handles|e]; [|inversion Hrun; subst; exact Ho01].
  eapply observes_trans; [exact Ho01|].
  eapply walk_loop_observes; [|exact Hrun].
  intros o p w2 r2 w2' Hsub. eapply IH. exact Hsub.
Qed.





(** X10: a walk that cannot start does not visit anything: when the anchor
    cannot be resolved the walk returns that very error with count 0, and
    when the children of the anchor cannot be listed it returns a
    [ListDirectoryError] around the store's error with count 0; in both
    cases the visitor is not called. *)
Theorem walk_fails_before_visiting (fuel : nat) (sid objectId : uint32)
    (fullPath : string) (recursive skip : bool) (cb : WalkCb U)
    (w w0 : World D U) :
  (forall e,
      Mtpx.GetObjectFromObjectIdOrPath sid objectId fullPath w = (Err e, w0) ->
      Mtpx.proccessWalk (S fuel) sid objectId fullPath recursive skip cb w
        = Some ((0, Some e), w0) /\
      visits (w_log w0) = visits (w_log w) /\ w_usr w0 = w_usr w) /\
  (forall fi e,
      Mtpx.GetObjectFromObjectIdOrPath sid objectId fullPath w = (Ok fi, w0) ->
      getObjectHandles (w_dev w) sid GOH_ALL_ASSOCS (ObjectId fi) = Err e ->
      exists w',
        Mtpx.proccessWalk (S fuel) sid objectId fullPath recursive skip cb w
          = Some ((0, Some (ListDirectoryError e)), w') /\
        visits (w_log w') = visits (w_log w) /\ w_usr w' = w_usr w).
Proof.
  split.
  - intros e Ha.
    destruct (reader_run _ _ _ _ (reader_Mtpx_anchor sid objectId fullPath) Ha)
      as (evs & Hr & Hw0 & _).
    split; [|split].
    + simpl. unfold pbind, lift. rewrite Ha. reflexivity.
    + rewrite Hw0. simpl. now apply reads_are_not_visits.
    + rewrite Hw0. reflexivity.
  - intros fi e Ha Hl.
    destruct (reader_run _ _ _ _ (reader_Mtpx_anchor sid objectId fullPath) Ha)
      as (evs & Hr & Hw0 & _).
    exists (record (EvGetObjectHandles sid GOH_ALL_ASSOCS (ObjectId fi)) w0).
    split; [|split].
    + simpl. unfold pbind, lift. rewrite Ha. unfold dev_GetObjectHandles.
      replace (w_dev w0) with (w_dev w) by (rewrite Hw0; reflexivity).
      rewrite Hl. reflexivity.
    + rewrite Hw0. simpl.
      rewrite (reads_are_not_visits _ [EvGetObjectHandles _ _ _])
        by reflexivity.
      now apply reads_are_not_visits.
    + rewrite Hw0. reflexivity.
Qed.

End WalkMore.

Lemma walk_only_observes_witness :
  match Mtpx.proccessWalk 3 1 10 "/docs" true true sample_count
          (sample_world 0) with
  | Some (_, w') => observes (sample_world 0) w'
  | None => False
  end.
Proof.
  pose proof (walk_only_observes (D := SampleStore) (U := nat) 3 1 10 "/docs"
                true true sample_count (sample_world 0)) as Hthm.
  destruct (Mtpx.proccessWalk 3 1 10 "/docs" true true sample_count
              (sample_world 0)) as [[r w']|] eqn:E.
  - exact (Hthm w' r eq_refl).
  - vm_compute in E. discriminate.
Defined.


Lemma walk_fails_before_visiting_witness :
  (Mtpx.proccessWalk 1 1 77 "/docs" true true sample_count (sample_world 0)
   = Some ((0, Some (FileObjectError (ForeignError "no such object"))),
           mkWorld sample_store 0%nat [EvGetObjectInfo 77])) /\
  (exists w',
      Mtpx.proccessWalk (H := offline_device) 1 1 ParentObjectId "/" true true
        sample_count offline_world
      = Some ((0, Some (ListDirectoryError (ForeignError "device offline"))),
              w') /\
      visits (w_log w') = 0%nat /\ w_usr w' = 0%nat).
Proof.
  split.
  - destruct (walk_fails_before_visiting (D := SampleStore) (U := nat) 0 1 77
                "/docs" true true sample_count (sample_world 0)
                (mkWorld sample_store 0%nat [EvGetObjectInfo 77]))
      as [Hanchor _].
    destruct (Hanchor (FileObjectError (ForeignError "no such object")))
      as [Hrun _]; [reflexivity|exact Hrun].
  - destruct (walk_fails_before_visiting (H := offline_device) (U := nat) 0 1
                ParentObjectId "/" true true sample_count offline_world
                offline_world) as [_ Hlist].
    eapply Hlist; reflexivity.
Defined.

Section WalkSkips.
Context {D U : Type} `{Device D} `{Utils}.



End WalkSkips.


(** ** Creating files and directories *)

Section MakeMore.
Context {D U : Type} `{Device D} `{Utils}.

(** X12: when the lookup of the name under the parent fails for a reason
    other than the name being absent (the listing, a name query or a
    description failed), [handleMakeFile] gives up with handle 0 and that
    error, whatever [overwriteExisting] says, and nothing is created or
    deleted. *)
Theorem makeFile_stops_on_lookup_failure (sid : uint32) (obj : ObjectInfo)
    (size : int64) (fileBuf : list Byte.byte) (overwrite : bool)
    (progressCb : SizeProgressCb) (w w1 : World D U) (e : error) :
  Mtpx.GetObjectFromParentIdAndFilename sid (ParentObject obj) (Filename obj) w
    = (Err (FileObjectError e), w1) ->
  Mtpx.handleMakeFile sid obj size fileBuf overwrite progressCb w
    = ((0, Some (FileObjectError e)), w1) /\
  observes w w1.
Proof.
  intros Hl. split.
  - unfold Mtpx.handleMakeFile, bind. rewrite Hl. reflexivity.
  - eapply reader_observes; [|exact Hl]. apply reader_Mtpx_lookup.
Qed.

(** X13: when the name is absent under the parent, [handleMakeFile]
    creates the object whatever [overwriteExisting] says, and no deletion
    is issued.  If [SendObjectInfo] fails with [e], the result is the handle
    it reported with [SendObjectError e], and no bytes are sent.  If it
    succeeds, the bytes are sent with a progress function that reports
    [(size, sent, objId, nil)] to [progressCb], and the result is the handle
    with exactly the outcome of that transfer: nil if it succeeded,
    [SendObjectError e] if it failed with [e]. *)
Theorem makeFile_creates_absent_name (sid : uint32) (obj : ObjectInfo)
    (size : int64) (fileBuf : list Byte.byte) (overwrite : bool)
    (progressCb : SizeProgressCb) (w w1 : World D U) (e0 : error)
    (a b objId : uint32) (err : option error) (d1 : D) :
  Mtpx.GetObjectFromParentIdAndFilename sid (ParentObject obj) (Filename obj) w
    = (Err (FileNotFoundError e0), w1) ->
  sendObjectInfo (w_dev w) sid (ParentObject obj) obj
    = ((a, b, objId, err), d1) ->
  match err with
  | Some e =>
      Mtpx.handleMakeFile sid obj size fileBuf overwrite progressCb w
      = ((objId, Some (SendObjectError e)),
         mkWorld d1 (w_usr w)
           (w_log w1 ++ [EvSendObjectInfo sid (ParentObject obj) obj]))
  | None =>
      forall (sent_err : option error) (d2 : D),
        sendObject d1 fileBuf size
          (fun sent =>
             match progressCb size sent objId None with
             | Some e => Some e
             | None => None
             end) = (sent_err, d2) ->
        Mtpx.handleMakeFile sid obj size fileBuf overwrite progressCb w
        = ((objId,
            match sent_err with
            | Some e => Some (SendObjectError e)
            | None => None
            end),
           mkWorld d2 (w_usr w)
             (w_log w1 ++ [EvSendObjectInfo sid (ParentObject obj) obj;
                           EvSendObject size]))
  end.
Proof.
  intros Hl Hsend.
  destruct (reader_run _ _ _ _
              (reader_Mtpx_lookup sid (ParentObject obj) (Filename obj)) Hl)
    as (evs & _ & Hw1 & _).
  assert (Hd : w_dev w1 = w_dev w) by (rewrite Hw1; reflexivity).
  assert (Hu : w_usr w1 = w_usr w) by (rewrite Hw1; reflexivity).
  unfold Mtpx.handleMakeFile, bind. rewrite Hl.
  unfold Mtpx.handleMakeFile_send, bind, dev_SendObjectInfo.
  rewrite Hd, Hsend, Hu.
  destruct err as [e|]; [reflexivity|].
  intros sent_err d2 Htransfer.
  unfold dev_SendObject. simpl w_dev. rewrite Htransfer.
  destruct sent_err as [e|]; unfold ret; simpl; rewrite <- app_assoc;
    reflexivity.
Qed.

(** X14: a directory made by [handleMakeDirectory] costs one store call, a
    creation (no lookup is made first); and on a store that hands back the
    info it was sent, describing the new handle costs one info query and
    yields a directory of that name under that parent, of size 0 and
    without extension in the sense of [extension]. *)
Theorem made_directory_is_described_as_one (now : Time)
    (sid parent : uint32) (name parentPath : string)
    (w w' : World D U) (objId : uint32) :
  Mtpx.handleMakeDirectory now sid parent name w = ((objId, None), w') ->
  objId <> ParentObjectId ->
  getObjectInfo (w_dev w') objId
    = Ok {| StorageID := sid; ObjectFormat := OFC_Association;
            CompressedSize := 0; ParentObject := parent; Filename := name;
            ModificationDate := now |} ->
  exists (fi : FileInfo) (w'' : World D U),
    Mtpx.GetObjectFromObjectId objId parentPath w' = (Ok fi, w'') /\
    IsDir fi = true /\ Name fi = name /\ ParentId fi = parent /\
    Size fi = 0 /\ ObjectId fi = objId /\ ModTime fi = now /\
    Extension fi = extension name true /\
    w_log w''
    = w_log w
      ++ [EvSendObjectInfo sid parent
            {| StorageID := sid; ObjectFormat := OFC_Association;
               CompressedSize := 0; ParentObject := parent; Filename := name;
               ModificationDate := now |};
          EvGetObjectInfo objId].
Proof.
  intros Hmk Hroot Hinfo.
  rewrite (Mtpx_describe_object objId parentPath w' _ Hroot Hinfo).
  rewrite GetFileSize_compact by (simpl; discriminate).
  eexists. eexists. split; [reflexivity|]. simpl.
  repeat split.
  unfold Mtpx.handleMakeDirectory, bind, dev_SendObjectInfo in Hmk.
  destruct (sendObjectInfo (w_dev w) sid parent _) as [[[[a b] h] [e|]] d1];
    unfold ret in Hmk; inversion Hmk.
  simpl. rewrite <- app_assoc. reflexivity.
Qed.

End MakeMore.

Lemma makeFile_stops_on_lookup_failure_witness :
  Mtpx.handleMakeFile (H := offline_device) 1
    (so_info (sample_file 0 10 "a.txt" 99)) 99 [] true (fun _ _ _ _ => None)
    offline_world
  = ((0, Some (FileObjectError (ForeignError "device offline"))),
     mkWorld tt 0%nat [EvGetObjectHandles 1 GOH_ALL_ASSOCS 10]) /\
  observes offline_world
    (mkWorld tt 0%nat [EvGetObjectHandles 1 GOH_ALL_ASSOCS 10]).
Proof.
  apply (makeFile_stops_on_lookup_failure (H := offline_device) (U := nat) 1
           (so_info (sample_file 0 10 "a.txt" 99)) 99 [] true
           (fun _ _ _ _ => None) offline_world).
  reflexivity.
Defined.

Lemma makeFile_creates_absent_name_witness :
  Mtpx.handleMakeFile 1 (so_info (sample_file 0 10 "new.txt" 3)) 3 [] false
    (fun _ _ _ _ => Some (ForeignError "cancelled")) (sample_world 0)
  = ((23, Some (SendObjectError (ForeignError "cancelled"))),
     mkWorld
       (sample_store
        ++ [mkSampleObject 23 (so_info (sample_file 0 10 "new.txt" 3))
              (Ok 3)])
       0%nat
       ([EvGetObjectHandles 1 GOH_ALL_ASSOCS 10;
         EvGetObjectPropValue 11 OPC_ObjectFileName;
         EvGetObjectPropValue 12 OPC_ObjectFileName;
         EvGetObjectPropValue 13 OPC_ObjectFileName;
         EvGetObjectPropValue 14 OPC_ObjectFileName]
        ++ [EvSendObjectInfo 1 10 (so_info (sample_file 0 10 "new.txt" 3));
            EvSendObject 3])).
Proof.
  refine (makeFile_creates_absent_name (D := SampleStore) (U := nat) 1
           (so_info (sample_file 0 10 "new.txt" 3)) 3 [] false
           (fun _ _ _ _ => Some (ForeignError "cancelled")) (sample_world 0)
           (mkWorld sample_store 0%nat
              [EvGetObjectHandles 1 GOH_ALL_ASSOCS 10;
               EvGetObjectPropValue 11 OPC_ObjectFileName;
               EvGetObjectPropValue 12 OPC_ObjectFileName;
               EvGetObjectPropValue 13 OPC_ObjectFileName;
               EvGetObjectPropValue 14 OPC_ObjectFileName])
           (Errorf "file not found: new.txt") 1 10 23 None
           (sample_store
            ++ [mkSampleObject 23 (so_info (sample_file 0 10 "new.txt" 3))
                  (Ok 3)])
           _ _
           (Some (ForeignError "cancelled"))
           (sample_store
            ++ [mkSampleObject 23 (so_info (sample_file 0 10 "new.txt" 3))
                  (Ok 3)])
           _); reflexivity.
Defined.

Lemma made_directory_is_described_as_one_witness :
  exists (fi : FileInfo) (w'' : World SampleStore nat),
    Mtpx.GetObjectFromObjectId 23 "/docs"
      (snd (Mtpx.handleMakeDirectory 7 1 10 "album" (sample_world 0)))
    = (Ok fi, w'') /\
    IsDir fi = true /\ Name fi = "album"%string /\ ParentId fi = 10 /\
    Size fi = 0 /\ ObjectId fi = 23 /\ ModTime fi = 7 /\
    Extension fi = EmptyString /\
    w_log w''
    = [EvSendObjectInfo 1 10
         {| StorageID := 1; ObjectFormat := OFC_Association;
            CompressedSize := 0; ParentObject := 10; Filename := "album";
            ModificationDate := 7 |};
       EvGetObjectInfo 23].
Proof.
  refine (made_directory_is_described_as_one (D := SampleStore) (U := nat) 7 1
            10 "album" "/docs" (sample_world 0)
            (snd (Mtpx.handleMakeDirectory 7 1 10 "album" (sample_world 0)))
            23 eq_refl _ eq_refl).
  discriminate.
Defined.

(** ** The [helpers.go] variant: existence test and directory walk *)

Section MainMore.
Context {D U : Type} `{Device D} `{Utils}.

Lemma reader_Main_path_loop (sid : uint32) (fullPath : string)
    (split segments : list string) :
  forall (i : nat) (pid : uint32) (isDir : bool) (rc : int),
    reader (D := D) (U := U)
      (Main.path_loop sid fullPath split i segments pid isDir rc).
Proof.
  induction segments as [|fName rest IH]; intros i pid isDir rc; simpl.
  - destruct (rc <? 1); apply reader_ret.
  - apply reader_bind; [apply reader_Main_lookup|].
    intros [[objectId _isDir]|err].
    + destruct (negb _isDir && indexExists split (i + 1 + Main.skipIndex));
        [apply reader_ret|apply IH].
    + destruct err; apply reader_ret.
Qed.

Lemma reader_Main_resolve (sid : uint32) (fullPath : string) :
  reader (D := D) (U := U) (Main.GetObjectFromPath sid fullPath).
Proof.
  unfold Main.GetObjectFromPath.
  destruct (String.eqb (fixSlash fullPath) PathSep);
    [apply reader_ret|apply reader_Main_path_loop].
Qed.

Lemma reader_Main_anchor (sid objectId : uint32) (fullPath : string) :
  reader (D := D) (U := U)
    (Main.GetObjectFromObjectIdOrPath sid objectId fullPath).
Proof.
  unfold Main.GetObjectFromObjectIdOrPath.
  destruct ((objectId =? 0) && String.eqb fullPath EmptyString);
    [apply reader_ret|].
  destruct (objectId =? 0).
  - apply reader_bind; [apply reader_Main_resolve|].
    intros [[objId _isDir]|err]; apply reader_ret.
  - apply reader_bind; [apply reader_Main_describe|].
    intros [f|err]; apply reader_ret.
Qed.

Lemma Main_anchor_failure_shape (sid objectId : uint32) (fullPath : string)
    (w w' : World D U) (id : uint32) (isDir : bool) (e : error) :
  Main.GetObjectFromObjectIdOrPath sid objectId fullPath w
    = ((id, isDir, Some e), w') ->
  id = 0 /\ isDir = false.
Proof.
  unfold Main.GetObjectFromObjectIdOrPath.
  destruct ((objectId =? 0) && String.eqb fullPath EmptyString).
  - unfold ret. intros Hr. inversion Hr. auto.
  - destruct (objectId =? 0); unfold bind.
    + destruct (Main.GetObjectFromPath sid fullPath w)
        as [[[objId _isDir]|err] w1]; unfold ret; intros Hr; inversion Hr;
        auto.
    + destruct (Main.GetObjectFromObjectId objectId fullPath w)
        as [[f|err] w1]; unfold ret; intros Hr; inversion Hr; auto.
Qed.

(** X15: when [FileExists] answers that the object does not exist, the
    other two results are [false] and handle 0; and answering never
    creates or deletes anything on the store. *)
Theorem fileExists_failure_shape (sid objectId : uint32) (filePath : string)
    (w w' : World D U) (rExists rIsDir : bool) (rObjectId : uint32) :
  Main.FileExists sid objectId filePath w
    = ((rExists, rIsDir, rObjectId), w') ->
  (rExists = false -> rIsDir = false /\ rObjectId = 0) /\
  observes w w'.
Proof.
  unfold Main.FileExists, bind.
  destruct (Main.GetObjectFromObjectIdOrPath sid objectId filePath w)
    as [[[id isDir] oe] w1] eqn:Ha.
  pose proof (reader_observes _ _ _ _
                (reader_Main_anchor sid objectId filePath) Ha) as Ho.
  destruct oe as [e|]; unfold ret; intros Hr; inversion Hr; subst.
  - destruct (Main_anchor_failure_shape _ _ _ _ _ _ _ _ Ha) as [-> ->].
    auto.
  - split; [discriminate|exact Ho].
Qed.

(** X16: given a handle other than 0, [FileExists] goes by the handle
    alone: its three results are the same whatever path comes with the
    handle, and when the object exists the handle returned is the one
    given. *)
Theorem fileExists_trusts_the_handle (sid objectId : uint32)
    (path1 path2 : string) (w : World D U) :
  objectId <> 0 ->
  fst (Main.FileExists sid objectId path1 w)
  = fst (Main.FileExists sid objectId path2 w) /\
  (forall isDir id,
      fst (Main.FileExists sid objectId path1 w) = (true, isDir, id) ->
      id = objectId).
Proof.
  intros Hnz. apply Z.eqb_neq in Hnz.
  unfold Main.FileExists, Main.GetObjectFromObjectIdOrPath.
  rewrite Hnz. cbn [andb].
  unfold bind, Main.GetObjectFromObjectId.
  destruct (objectId =? ParentObjectId).
  - unfold ret. simpl. split; [reflexivity|].
    intros isDir id Hr. now inversion Hr.
  - unfold bind, dev_GetObjectInfo.
    destruct (getObjectInfo (w_dev w) objectId) as [obj|err].
    + destruct (GetFileSize obj objectId (record (EvGetObjectInfo objectId) w))
        as [sz w1].
      unfold ret. simpl. split; [reflexivity|].
      intros isDir id Hr. now inversion Hr.
    + unfold ret. simpl. split; [reflexivity|]. discriminate.
Qed.




End MainMore.

Lemma fileExists_failure_shape_witness :
  exists w' : World SampleStore nat,
    Main.FileExists 1 0 "/docs/zzz" (sample_world 0)
      = ((false, false, 0), w') /\
    observes (sample_world 0) w'.
Proof.
  pose proof (fileExists_failure_shape (D := SampleStore) (U := nat) 1 0
                "/docs/zzz" (sample_world 0)) as Hthm.
  destruct (Main.FileExists 1 0 "/docs/zzz" (sample_world 0))
    as [[[rExists rIsDir] rObjectId] w'] eqn:E.
  assert (Hex : rExists = false) by (vm_compute in E; now inversion E).
  destruct (Hthm w' rExists rIsDir rObjectId eq_refl) as [Hshape Hobs].
  destruct (Hshape Hex) as [-> ->]. subst rExists.
  exists w'. split; [reflexivity|exact Hobs].
Defined.

Lemma fileExists_trusts_the_handle_witness :
  fst (Main.FileExists 1 13 "/docs/sub" (sample_world 0))
  = fst (Main.FileExists 1 13 "/no/such/path" (sample_world 0)) /\
  fst (Main.FileExists 1 13 "/no/such/path" (sample_world 0))
  = (true, true, 13).
Proof.
  destruct (fileExists_trusts_the_handle (D := SampleStore) (U := nat) 1 13
              "/docs/sub" "/no/such/path" (sample_world 0)) as [Hsame _];
    [discriminate|].
  split; [exact Hsame|reflexivity].
Defined.


(** ** The local walk: invariants and errors *)


Section WalkInvariant.
Context {S : Type}.
Variable walkFn : WalkArg -> S -> option error * S.
Variable Inv : S -> Prop.
Hypothesis walkFn_keeps : forall arg st, Inv st -> Inv (snd (walkFn arg st)).




End WalkInvariant.

Section LocalMore.
Context {U : Type} `{Utils}.





(** X20: the sources are walked one after the other, each from the totals
    the one before has left; once the walk of a source fails, the sources
    after it are not walked. *)
Theorem local_walk_of_sources_in_sequence (fs : string -> LocalNode)
    (cb : LocalWalkCb U) (first rest : list string) (st : LocalTotals U) :
  walkLocalFiles_loop fs cb (first ++ rest) st =
    match walkLocalFiles_loop fs cb first st with
    | (Some e, st') => (Some e, st')
    | (None, st') => walkLocalFiles_loop fs cb rest st'
    end.
Proof.
  revert st. induction first as [|source first IH]; intros st;
    [reflexivity|].
  simpl.
  destruct (filepath_Walk (walkLocalFiles_fn cb) (fs source) st)
    as [[e|] st'].
  - destruct e; try reflexivity. destruct permission; reflexivity.
  - apply IH.
Qed.

(** X21: a local walk never returns a bare path error of the operating
    system: such an error comes back inside a [FilePermissionError] or a
    [LocalFileError]. *)
Theorem local_walk_classifies_path_errors (fs : string -> LocalNode)
    (sources : list string) (cb : LocalWalkCb U) (u : U) (e : error) :
  fst (walkLocalFiles fs sources cb u) = Some e ->
  forall permission msg, e <> PathError permission msg.
Proof.
  unfold walkLocalFiles. generalize (mkLocalTotals 0 0 0 u []).
  induction sources as [|source rest IH]; intros st; [discriminate|].
  simpl.
  destruct (filepath_Walk (walkLocalFiles_fn cb) (fs source) st)
    as [[e0|] st']; [|apply IH].
  destruct e0; try (simpl; intros Hr; inversion Hr; discriminate).
  destruct permission; simpl; intros Hr; inversion Hr; discriminate.
Qed.

(** X22: a source that cannot be examined ([Lstat] fails) and a directory
    source that cannot be read both fail the walk at once, with the error
    classified by kind (permission or not); the visitor is not called on
    that source and the totals stay as they were. *)
Theorem local_walk_unreadable_source (fs : string -> LocalNode)
    (cb : LocalWalkCb U) (source : string) (rest : list string)
    (st : LocalTotals U) (permission : bool) (msg : string) :
  (fs source = LBroken (PathError permission msg) \/
   exists info children,
     fs source = LNode info (Some (PathError permission msg)) children /\
     os_IsDir info = true) ->
  walkLocalFiles_loop fs cb (source :: rest) st =
    (Some (if permission
           then FilePermissionError (PathError permission msg)
           else LocalFileError (PathError permission msg)), st).
Proof.
  intros [Hbroken|(info & children & Hnode & Hdir)]; simpl.
  - rewrite Hbroken. simpl. destruct permission; reflexivity.
  - rewrite Hnode. unfold filepath_Walk.
    rewrite (filepath_walk_dir _ _ _ _ _ Hdir). simpl.
    destruct permission; reflexivity.
Qed.

(** X23: a visitor prunes by answering [SkipDir].  On a directory (one
    that is handed to it) the children are not walked, the directory is not
    counted, and the walk goes on with the entries after it; on a
    non-directory the entries after it in the same directory are not
    walked. *)
Theorem local_visitor_skipdir_prunes (cb : LocalWalkCb U)
    (info : os_FileInfo) (children after : list LocalNode)
    (st : LocalTotals U) (u' : U) :
  isSymlinkLocal info = false ->
  isDisallowedFiles (os_Name info) = false ->
  cb info None (l_usr st) = (Some SkipDir, u') ->
  let st' := mkLocalTotals (totalFiles st) (totalDirectories st)
               (totalSize st) u' (l_visited st ++ [info]) in
  (os_IsDir info = true ->
     walk_names (walkLocalFiles_fn cb) (LNode info None children :: after) st
     = walk_names (walkLocalFiles_fn cb) after st') /\
  (os_IsDir info = false ->
     walk_names (walkLocalFiles_fn cb) (LNode info None children :: after) st
     = (Some SkipDir, st')).
Proof.
  intros Hlink Hallowed Hcb st'.
  assert (Hfn : walkLocalFiles_fn cb (Entry info None) st
                = (Some SkipDir, st')).
  { unfold walkLocalFiles_fn. rewrite Hlink, Hallowed, Hcb. reflexivity. }
  split; intros Hdir; cbn [walk_names].
  - rewrite (filepath_walk_dir _ _ _ _ _ Hdir), Hfn. simpl.
    rewrite Hdir. reflexivity.
  - cbn [filepath_walk]. rewrite Hdir. cbn [negb]. rewrite Hfn.
    reflexivity.
Qed.

(** X24: [makeLocalDirectory] classifies a failure of [MkdirAll] the way
    the local walk classifies the failure of examining a source: it
    succeeds exactly when [MkdirAll] does, and for one and the same error
    of the operating system (other than [SkipDir], which [Walk] keeps to
    itself) both return the same error. *)
Theorem makeLocalDirectory_classifies_like_walk (fs : string -> LocalNode)
    (cb : LocalWalkCb U) (u : U) (source : string) (mode : Z)
    (os_MkdirAll : string -> Z -> option error) (e : error) :
  (os_MkdirAll source mode = None <->
   makeLocalDirectory os_MkdirAll mode source = None) /\
  (os_MkdirAll source mode = Some e ->
   fs source = LBroken e ->
   e <> SkipDir ->
   makeLocalDirectory os_MkdirAll mode source
   = fst (walkLocalFiles fs [source] cb u)).
Proof.
  split.
  - unfold makeLocalDirectory.
    destruct (os_MkdirAll source mode) as [err|]; [|tauto].
    split; [discriminate|].
    destruct err; try discriminate. destruct permission; discriminate.
  - intros Hmk Hfs Hskip. unfold makeLocalDirectory, walkLocalFiles.
    rewrite Hmk. simpl. rewrite Hfs. simpl.
    destruct e; try reflexivity; try contradiction.
    destruct permission; reflexivity.
Qed.

End LocalMore.


Lemma local_walk_classifies_path_errors_witness :
  fst (walkLocalFiles sample_local_fs ["/nope"]%string sample_local_count 0%nat)
  = Some (LocalFileError
            (PathError false "lstat: no such file or directory")) /\
  forall permission msg,
    LocalFileError (PathError false "lstat: no such file or directory")
    <> PathError permission msg.
Proof.
  split; [reflexivity|].
  apply (local_walk_classifies_path_errors (U := nat) sample_local_fs
           ["/nope"]%string sample_local_count 0%nat).
  reflexivity.
Defined.

Lemma local_walk_unreadable_source_witness :
  walkLocalFiles_loop sample_local_fs sample_local_count
    ["/nope"; "/home/u/photos"]%string (mkLocalTotals 0 0 0 0%nat [])
  = (Some (LocalFileError
             (PathError false "lstat: no such file or directory")),
     mkLocalTotals 0 0 0 0%nat []).
Proof.
  apply (local_walk_unreadable_source (U := nat) sample_local_fs
           sample_local_count "/nope" ["/home/u/photos"]%string
           (mkLocalTotals 0 0 0 0%nat []) false
           "lstat: no such file or directory").
  left. reflexivity.
Defined.

Lemma local_visitor_skipdir_prunes_witness :
  walk_names (walkLocalFiles_fn sample_local_skip_dirs)
    [sample_local_tree; LNode sample_a_jpg None []]
    (mkLocalTotals 0 0 0 0%nat [])
  = walk_names (walkLocalFiles_fn sample_local_skip_dirs)
      [LNode sample_a_jpg None []]
      (mkLocalTotals 0 0 0 1%nat [sample_photos]).
Proof.
  destruct (local_visitor_skipdir_prunes (U := nat) sample_local_skip_dirs
              sample_photos
              [ LNode sample_trashes None [LNode sample_keep None []];
                LNode sample_a_jpg None [];
                LNode sample_link None [] ]
              [LNode sample_a_jpg None []]
              (mkLocalTotals 0 0 0 0%nat []) 1%nat)
    as [Hdir _]; [reflexivity | reflexivity | reflexivity |].
  exact (Hdir eq_refl).
Defined.

Lemma makeLocalDirectory_classifies_like_walk_witness :
  makeLocalDirectory
    (fun _ _ => Some (PathError false "lstat: no such file or directory"))
    493 "/nope"
  = fst (walkLocalFiles sample_local_fs ["/nope"]%string sample_local_count
           0%nat).
Proof.
  destruct (makeLocalDirectory_classifies_like_walk (U := nat) sample_local_fs
              sample_local_count 0%nat "/nope" 493
              (fun _ _ => Some (PathError false
                                  "lstat: no such file or directory"))
              (PathError false "lstat: no such file or directory"))
    as [_ Hsame].
  apply Hsame; [reflexivity | reflexivity | discriminate].
Defined.

(** * Existing names and excluded entries, on the store's and the tree's
    own terms *)

(** ** Creating a file over a name the store holds *)

Section MakeFileExisting.
Context {D U : Type} `{Device D} `{Utils}.

Lemma Mtpx_lookup_loop_finds (name : string) (pre post : list uint32)
    (h : uint32) (info : ObjectInfo) (d : D) :
  Forall (fun h' => exists val,
              getObjectPropString d h' OPC_ObjectFileName = Ok val /\
              val <> name) pre ->
  getObjectPropString d h OPC_ObjectFileName = Ok name ->
  h <> ParentObjectId ->
  getObjectInfo d h = Ok info ->
  Filename info = name ->
  forall (u : U) (l : list Event),
  exists (fi : FileInfo) (w1 : World D U),
    Mtpx.lookup_loop name (pre ++ h :: post) (mkWorld d u l) = (Ok fi, w1) /\
    ObjectId fi = h /\ Name fi = name /\ Info fi = info.
Proof.
  intros Hpre Hprop Hroot Hinfo Hname.
  induction Hpre as [|h' pre (val & Hval & Hne) Hpre IH]; intros u l.
  - simpl app. rewrite Mtpx_lookup_loop_cons. simpl w_dev.
    rewrite Hprop, String.eqb_refl. cbn [negb].
    rewrite (Mtpx_describe_object h EmptyString _ info Hroot)
      by (simpl; exact Hinfo).
    cbn [Name]. rewrite Hname, String.eqb_refl.
    eexists. eexists. split; [reflexivity|]. simpl. auto.
  - simpl app. rewrite Mtpx_lookup_loop_cons. simpl w_dev. rewrite Hval.
    apply String.eqb_neq in Hne. rewrite Hne. cbn [negb].
    unfold record. simpl. apply IH.
Qed.

(** C6 (amended): let the store list under the parent a child that
    carries the name (its file-name property and its info record both say
    so), every child listed before it having a readable file-name property
    that differs.  Then [handleMakeFile] with [overwriteExisting = false]
    returns the handle of that child; the store is unchanged and the calls
    recorded are reads only (no delete, no create); called again, it
    returns the same handle. *)
Theorem makeFile_keeps_existing_child (sid : uint32) (obj : ObjectInfo)
    (size : int64) (fileBuf : list Byte.byte) (progressCb : SizeProgressCb)
    (w : World D U) (pre post : list uint32) (h : uint32)
    (info : ObjectInfo) :
  getObjectHandles (w_dev w) sid GOH_ALL_ASSOCS (ParentObject obj)
    = Ok (pre ++ h :: post) ->
  Forall (fun h' => exists val,
              getObjectPropString (w_dev w) h' OPC_ObjectFileName = Ok val /\
              val <> Filename obj) pre ->
  getObjectPropString (w_dev w) h OPC_ObjectFileName = Ok (Filename obj) ->
  h <> ParentObjectId ->
  getObjectInfo (w_dev w) h = Ok info ->
  Filename info = Filename obj ->
  exists w1 : World D U,
    Mtpx.handleMakeFile sid obj size fileBuf false progressCb w
      = ((h, None), w1) /\
    w_dev w1 = w_dev w /\
    (exists evs,
        w_log w1 = w_log w ++ evs /\ existsb is_mutation evs = false) /\
    (forall size' fileBuf' progressCb',
        exists w2 evs,
          Mtpx.handleMakeFile sid obj size' fileBuf' false progressCb' w1
            = ((h, None), w2) /\
          w_dev w2 = w_dev w /\
          w_log w2 = w_log w1 ++ evs /\ existsb is_mutation evs = false).
Proof.
  intros Hlist Hpre Hprop Hroot Hinfo Hname.
  destruct (Mtpx_lookup_loop_finds (Filename obj) pre post h info (w_dev w)
              Hpre Hprop Hroot Hinfo Hname (w_usr w)
              (w_log w ++ [EvGetObjectHandles sid GOH_ALL_ASSOCS
                             (ParentObject obj)]))
    as (fi & w1 & Hloop & Hid & _ & _).
  assert (Hlookup :
    Mtpx.GetObjectFromParentIdAndFilename sid (ParentObject obj)
      (Filename obj) w = (Ok fi, w1)).
  { rewrite Mtpx_lookup_unfold, Hlist. exact Hloop. }
  exists w1. rewrite <- Hid.
  exact (makeFile_keeps_looked_up sid obj size fileBuf progressCb w w1 fi
           Hlookup).
Qed.

End MakeFileExisting.

Lemma makeFile_keeps_existing_child_witness :
  exists w1 : World SampleStore nat,
    Mtpx.handleMakeFile 1 (so_info (sample_file 0 10 "b.txt" 99)) 99 [] false
      (fun _ _ _ _ => None) (sample_world 0) = ((14, None), w1) /\
    w_dev w1 = sample_store /\
    (exists evs, w_log w1 = [] ++ evs /\ existsb is_mutation evs = false) /\
    (forall size' fileBuf' progressCb',
        exists w2 evs,
          Mtpx.handleMakeFile 1 (so_info (sample_file 0 10 "b.txt" 99)) size'
            fileBuf' false progressCb' w1 = ((14, None), w2) /\
          w_dev w2 = sample_store /\
          w_log w2 = w_log w1 ++ evs /\ existsb is_mutation evs = false).
Proof.
  apply (makeFile_keeps_existing_child (D := SampleStore) (U := nat) 1
           (so_info (sample_file 0 10 "b.txt" 99)) 99 []
           (fun _ _ _ _ => None) (sample_world 0) [11; 12; 13] [] 14
           (so_info (sample_file 14 10 "b.txt" 7))).
  - reflexivity.
  - repeat constructor; eexists; (split; [reflexivity|discriminate]).
  - reflexivity.
  - discriminate.
  - reflexivity.
  - reflexivity.
Defined.

(** C6, as stated, fails on a parent that holds "a.txt" (handle 11) but
    lists before it a handle whose file-name property cannot be read: with
    [overwriteExisting = false] the result is handle 0 with a
    [FileObjectError], not the handle of the existing file. *)
Lemma makeFile_existing_counterexample :
  getObjectHandles (Device := ghost_device) sample_store 1 GOH_ALL_ASSOCS 10
    = Ok [99; 11; 12; 13; 14] /\
  getObjectInfo (Device := ghost_device) sample_store 11
    = Ok (so_info (sample_file 11 10 "a.txt" 5)) /\
  getObjectPropString (Device := ghost_device) sample_store 11
    OPC_ObjectFileName = Ok "a.txt"%string /\
  fst (Mtpx.handleMakeFile (H := ghost_device) 1
         (so_info (sample_file 0 10 "a.txt" 99)) 99 [] false
         (fun _ _ _ _ => None) (sample_world 0))
  = (0, Some (FileObjectError (ForeignError "no such object"))) /\
  (0, Some (FileObjectError (ForeignError "no such object")))
  <> (11, @None error).
Proof.
  repeat split. discriminate.
Qed.

(** ** Excluded entries in the whole local walk *)




Section LocalExcluded.
Context {U : Type} `{Utils}.











End LocalExcluded.

